(** * Contagious Diseases Analysis Tool: [dataset.py]

    A shallow embedding of the analysis and visualisation logic of
    [dataset.py] (a Streamlit script over a pandas [DataFrame]) and the
    properties its specification states about it.

    Conventions of the embedding.
    - A pandas column is a [Series]: one constructor per dtype, carrying the
      values the way pandas stores them ([int64] has no missing value,
      [float64] holds NaN for a missing cell, [object] holds strings or NaN,
      [datetime64] holds NaT).
    - A [float64] value is an exact rational or NaN ([None]): the rounding
      of binary floating point and the infinities are not modelled, and an
      [int64] cell enters a comparison with its exact value (pandas converts
      it to float64, which is exact up to [2^53]).  NaN propagates through
      arithmetic and every comparison with NaN is false, as in IEEE 754.
    - [round(x, 2)] is kept as the constructor [round_]: what is stated of
      a statistic is stated of the value the script hands to [round].
    - The pandas calls of the script ([select_dtypes], [is_numeric_dtype],
      [quantile], [value_counts], [corr] and the statistics) are written out
      in the module [Pandas] after their documented behaviour with default
      arguments.
    - Library behaviour the script does not determine (whether a plotting
      call raises, quantiles of a boolean column, calendar resampling, the
      order in which numpy's sort leaves equal keys of a long array) is a
      field of the environment [Lib], and the theorems hold for every such
      environment.
    - The Streamlit calls of the script are recorded, in order, as a list of
      [st_event]; Python exceptions are the left summand of the [St] monad.
      Calls that only lay the page out ([st.columns], [with cols[i]]) and
      the pictographs of the headers are left out. *)

From Stdlib Require Import List Bool Arith ZArith QArith Qround Lia String Ascii.
From Stdlib Require Import Sorting.Permutation Sorting.Sorted Sorting.Mergesort Orders.
From Stdlib Require Import Reals Qreals Lqa.
From Stdlib Require Lra.
Import ListNotations.

Open Scope Q_scope.

(** ** Ordering of rationals used by the sort inside [quantile] *)

Module QOrder <: TotalLeBool.
Definition t := Q.
Definition leb := Qle_bool.
Theorem leb_total : forall x y, leb x y = true \/ leb y x = true.
Proof.
  intros x y. unfold leb. rewrite !Qle_bool_iff.
  destruct (Qlt_le_dec x y) as [H|H]; [left; apply Qlt_le_weak|right]; exact H.
Qed.
End QOrder.

Module QSort := Sort QOrder.

(** ** pandas: the data model and the library calls the script makes *)

Module Pandas.

(** The dtypes a column of the loaded frame can have. *)
Inductive dtype := int64 | float64 | bool_ | object_ | datetime64.

(** A float64 cell: a number or NaN. *)
Definition float := option Q.
Definition NaN : float := None.

Inductive Series :=
| IntSeries (vs : list Z)
| FloatSeries (vs : list float)
| BoolSeries (vs : list bool)
| ObjectSeries (vs : list (option string))
| DatetimeSeries (vs : list (option Z)).

Definition dtype_of (s : Series) : dtype :=
  match s with
  | IntSeries _ => int64
  | FloatSeries _ => float64
  | BoolSeries _ => bool_
  | ObjectSeries _ => object_
  | DatetimeSeries _ => datetime64
  end.

(** [len(series)] *)
Definition series_len (s : Series) : nat :=
  match s with
  | IntSeries vs => List.length vs
  | FloatSeries vs => List.length vs
  | BoolSeries vs => List.length vs
  | ObjectSeries vs => List.length vs
  | DatetimeSeries vs => List.length vs
  end.

(** A frame: its named columns, in order.  Column names are unique and all
    columns have the same length ([wf_frame]). *)
Definition DataFrame := list (string * Series).

Definition columns (df : DataFrame) : list string := map fst df.

(** [len(df)]: the number of rows. *)
Definition len (df : DataFrame) : nat :=
  match df with
  | [] => 0%nat
  | (_, s) :: _ => series_len s
  end.

Definition wf_frame (df : DataFrame) : Prop :=
  NoDup (columns df) /\ forall c s, In (c, s) df -> series_len s = len df.

(** [df[col]]: [KeyError] when there is no such column, in particular when
    [col] is [None]. *)
Fixpoint lookup (df : DataFrame) (c : string) : option Series :=
  match df with
  | [] => None
  | (c', s) :: df' => if String.eqb c c' then Some s else lookup df' c
  end.

Definition getitem (df : DataFrame) (col : option string) : option Series :=
  match col with
  | Some c => lookup df c
  | None => None
  end.

(** *** dtype predicates *)

(** [pd.api.types.is_numeric_dtype]: integers, floats and booleans. *)
Definition is_numeric_dtype (s : Series) : bool :=
  match dtype_of s with
  | int64 | float64 | bool_ => true
  | object_ | datetime64 => false
  end.

(** The [include=] argument of [select_dtypes], for the three values the
    script passes. *)
Inductive dtype_class := number | object | datetime.

Definition in_class (k : dtype_class) (d : dtype) : bool :=
  match k, d with
  | number, (int64 | float64) => true
  | object, object_ => true
  | datetime, datetime64 => true
  | _, _ => false
  end.

(** [df.select_dtypes(include=k)] *)
Definition select_dtypes (k : dtype_class) (df : DataFrame) : DataFrame :=
  filter (fun cs => in_class k (dtype_of (snd cs))) df.

(** *** float64 arithmetic with NaN *)

Definition lift2 (f : Q -> Q -> Q) (a b : float) : float :=
  match a, b with
  | Some x, Some y => Some (f x y)
  | _, _ => NaN
  end.

Definition fadd := lift2 Qplus.
Definition fsub := lift2 Qminus.
Definition fmul := lift2 Qmult.

Definition Qltb (x y : Q) : bool := negb (Qle_bool y x).

(** [a < b] and [a > b] on floats: false when either side is NaN. *)
Definition flt (a b : float) : bool :=
  match a, b with
  | Some x, Some y => Qltb x y
  | _, _ => false
  end.

Definition fgt (a b : float) : bool := flt b a.

(** The values of a numeric column as float64; a boolean counts as 0 or 1.
    An integer is taken exactly (float64 is exact on integers up to
    [2^53]). *)
Definition to_float (s : Series) : list float :=
  match s with
  | IntSeries vs => map (fun z => Some (inject_Z z)) vs
  | FloatSeries vs => vs
  | BoolSeries vs => map (fun b : bool => Some (if b then 1 else 0)) vs
  | ObjectSeries vs => map (fun _ => NaN) vs
  | DatetimeSeries vs => map (fun _ => NaN) vs
  end.

(** The non-missing values ([skipna=True], the default everywhere). *)
Definition dropna {A : Type} (vs : list (option A)) : list A :=
  flat_map (fun v => match v with Some x => [x] | None => [] end) vs.

(** *** [Series.quantile(q)], interpolation ['linear'] (the default)

    NaN is dropped; of no value at all the quantile is NaN.  Otherwise, with
    the [n] values sorted, the virtual index is [(n-1) q], and the result
    interpolates between the values at its floor and at the next index
    (clipped to the last one). *)
Definition lerp (a b t : Q) : Q := a + (b - a) * t.

Definition quantile_sorted (q : Q) (s : list Q) : float :=
  match s with
  | [] => NaN
  | x0 :: _ =>
    let n := List.length s in
    let h := inject_Z (Z.of_nat n - 1) * q in
    let i := Qfloor h in
    let prev := Z.to_nat i in
    let next := Nat.min (prev + 1) (n - 1) in
    Some (lerp (nth prev s x0) (nth next s x0) (h - inject_Z i))
  end.

Definition quantile (q : Q) (vs : list float) : float :=
  quantile_sorted q (QSort.sort (dropna vs)).

(** *** [Series.value_counts()]

    Missing values are dropped ([dropna=True]).  The distinct values are
    tallied in a hash table that keeps them in order of first appearance;
    the table is then sorted by descending count ([sort=True],
    [ascending=False]) with numpy's default sort.  That sort is not stable.
    An array of at most [short_table] elements is sorted by insertion, which
    keeps rows of equal count in order of first appearance; in a longer
    table the order among rows of equal count is whatever the partitioning
    of the library at hand leaves.  That order is the parameter
    [quicksort_order]: from the counts of the table, the positions at which
    rows are taken out of it, one after the other, before the rows are put
    in order of count. *)

Definition short_table : nat := 16.

Section ValueCounts.
Context {A : Type} (eq_dec : forall x y : A, {x = y} + {x <> y}).
Variable quicksort_order : list nat -> list nat.

Fixpoint bump (k : A) (t : list (A * nat)) : list (A * nat) :=
  match t with
  | [] => [(k, 1%nat)]
  | (k', c) :: t' =>
    if eq_dec k k' then (k', S c) :: t' else (k', c) :: bump k t'
  end.

Definition tally_step (t : list (A * nat)) (v : option A) : list (A * nat) :=
  match v with
  | Some k => bump k t
  | None => t
  end.

Definition tally (vs : list (option A)) : list (A * nat) :=
  fold_left tally_step vs [].

Fixpoint insert_desc (e : A * nat) (t : list (A * nat)) : list (A * nat) :=
  match t with
  | [] => [e]
  | e' :: t' =>
    if (snd e' <=? snd e)%nat then e :: e' :: t' else e' :: insert_desc e t'
  end.

Definition sort_desc (t : list (A * nat)) : list (A * nat) :=
  fold_right insert_desc [] t.

(** The row at position [i] and the rows left. *)
Fixpoint take_out (i : nat) (t : list (A * nat))
  : option ((A * nat) * list (A * nat)) :=
  match t, i with
  | [], _ => None
  | e :: t', O => Some (e, t')
  | e :: t', S i' =>
    match take_out i' t' with
    | Some (x, rest) => Some (x, e :: rest)
    | None => None
    end
  end.

(** The rows taken out at the positions [order], in that order, followed by
    the rows never taken out; a position that does not exist is skipped. *)
Fixpoint arrange (order : list nat) (t : list (A * nat)) : list (A * nat) :=
  match order with
  | [] => t
  | i :: order' =>
    match take_out i t with
    | Some (e, rest) => e :: arrange order' rest
    | None => arrange order' t
    end
  end.

Definition value_counts (vs : list (option A)) : list (A * nat) :=
  let t := tally vs in
  if (List.length t <=? short_table)%nat then sort_desc t
  else sort_desc (arrange (quicksort_order (map snd t)) t).

(** Row number of the first appearance of [k] (the length when absent). *)
Fixpoint first_index (k : A) (vs : list (option A)) : nat :=
  match vs with
  | [] => 0%nat
  | Some k' :: vs' => if eq_dec k k' then 0%nat else S (first_index k vs')
  | None :: vs' => S (first_index k vs')
  end.

(** Number of rows holding [k]. *)
Fixpoint occurrences (k : A) (vs : list (option A)) : nat :=
  match vs with
  | [] => 0%nat
  | Some k' :: vs' =>
    if eq_dec k k' then S (occurrences k vs') else occurrences k vs'
  | None :: vs' => occurrences k vs'
  end.

(** The count a table holds for a key (0 when the key is absent). *)
Fixpoint held (k : A) (t : list (A * nat)) : nat :=
  match t with
  | [] => 0%nat
  | (k', c) :: t' => if eq_dec k k' then c else held k t'
  end.

End ValueCounts.

(** The values a frequency table is keyed by. *)
Inductive scalar :=
| PyStr (s : string)
| PyTimestamp (t : Z)
| PyInt (z : Z)
| PyFloat (q : Q)
| PyBool (b : bool).

Definition scalar_eq_dec (x y : scalar) : {x = y} + {x <> y}.
Proof.
  decide equality; try apply Z.eq_dec; try apply string_dec; try apply bool_dec.
  decide equality; try apply Z.eq_dec; apply Pos.eq_dec.
Defined.

(** The cells of a column as hashable keys. *)
Definition keys (s : Series) : list (option scalar) :=
  match s with
  | IntSeries vs => map (fun z => Some (PyInt z)) vs
  | FloatSeries vs => map (option_map (fun q => PyFloat (Qred q))) vs
  | BoolSeries vs => map (fun b => Some (PyBool b)) vs
  | ObjectSeries vs => map (option_map PyStr) vs
  | DatetimeSeries vs => map (option_map PyTimestamp) vs
  end.

Definition Series_value_counts (quicksort_order : list nat -> list nat)
  (s : Series) : list (scalar * nat) :=
  value_counts scalar_eq_dec quicksort_order (keys s).

(** *** Descriptive statistics ([skipna=True]) *)

Definition Qsum (l : list Q) : Q := fold_right Qplus 0 l.

Definition count {A : Type} (l : list A) : Q :=
  inject_Z (Z.of_nat (List.length l)).

(** [Series.mean()] *)
Definition mean (vs : list float) : float :=
  match dropna vs with
  | [] => NaN
  | l => Some (Qsum l / count l)
  end.

(** [Series.median()] *)
Definition median (vs : list float) : float :=
  let s := QSort.sort (dropna vs) in
  match s with
  | [] => NaN
  | x0 :: _ =>
    let n := List.length s in
    if Nat.even n
    then Some ((nth (n / 2 - 1) s x0 + nth (n / 2) s x0) / 2)
    else Some (nth (n / 2) s x0)
  end.

(** Sum of the [p]-th powers of the deviations from the mean. *)
Definition sum_dev (p : positive) (l : list Q) : Q :=
  let m := Qsum l / count l in
  Qsum (map (fun x => Qpower_positive (x - m) p) l).

(** [Series.var()]: [ddof=1]. *)
Definition var (vs : list float) : float :=
  let l := dropna vs in
  if (List.length l <=? 1)%nat then NaN
  else Some (sum_dev 2 l / (count l - 1)).

(** [Series.std()] *)
Definition std (vs : list float) : option R :=
  option_map (fun v => sqrt (Q2R v)) (var vs).

(** [Series.skew()]: the bias-corrected sample skewness, 0 for a column
    that does not vary (as pandas 2 has it). *)
Definition skew (vs : list float) : option R :=
  let l := dropna vs in
  let n := count l in
  let m2 := sum_dev 2 l in
  let m3 := sum_dev 3 l in
  if (List.length l <? 3)%nat then None
  else if Qeq_bool m2 0 then Some 0%R
  else Some ((Q2R n * sqrt (Q2R (n - 1)) / Q2R (n - 2))
             * (Q2R m3 / (Q2R m2 * sqrt (Q2R m2))))%R.

(** [Series.kurtosis()]: the bias-corrected excess kurtosis, 0 for a column
    that does not vary (as pandas 2 has it). *)
Definition kurtosis (vs : list float) : float :=
  let l := dropna vs in
  let n := count l in
  let m2 := sum_dev 2 l in
  let m4 := sum_dev 4 l in
  let adj := 3 * (n - 1) * (n - 1) / ((n - 2) * (n - 3)) in
  let numerator := n * (n + 1) * (n - 1) * m4 in
  let denominator := (n - 2) * (n - 3) * (m2 * m2) in
  if (List.length l <? 4)%nat then NaN
  else if Qeq_bool denominator 0 then Some 0
  else Some (numerator / denominator - adj).

(** *** [DataFrame.corr()]: pairwise Pearson correlation

    For each pair of columns the rows where both are present are kept
    ([min_periods=1]); the coefficient is NaN when the divisor is zero. *)
Fixpoint valid_pairs (xs ys : list float) : list (Q * Q) :=
  match xs, ys with
  | Some x :: xs', Some y :: ys' => (x, y) :: valid_pairs xs' ys'
  | _ :: xs', _ :: ys' => valid_pairs xs' ys'
  | _, _ => []
  end.

Definition pearson_pairs (ps : list (Q * Q)) : option R :=
  let mx := Qsum (map fst ps) / count ps in
  let my := Qsum (map snd ps) / count ps in
  let covxy := Qsum (map (fun p => (fst p - mx) * (snd p - my)) ps) in
  let ssqdm_x := Qsum (map (fun p => (fst p - mx) * (fst p - mx)) ps) in
  let ssqdm_y := Qsum (map (fun p => (snd p - my) * (snd p - my)) ps) in
  match ps with
  | [] => None
  | _ :: _ =>
    if Qeq_bool (ssqdm_x * ssqdm_y) 0 then None
    else Some (Q2R covxy / sqrt (Q2R (ssqdm_x * ssqdm_y)))%R
  end.

Definition pearson (xs ys : list float) : option R :=
  pearson_pairs (valid_pairs xs ys).

(** A labelled square matrix: one row per column of the frame. *)
Definition matrix := list (string * list (option R)).

Definition corr (df : DataFrame) : matrix :=
  map (fun ci => (fst ci,
         map (fun cj => pearson (to_float (snd ci)) (to_float (snd cj))) df))
      df.


End Pandas.

Import Pandas.

(** ** Streamlit and the plotting libraries *)

Module Streamlit.

(** Python exceptions the script can meet.  [DuplicateWidgetID] is
    Streamlit's error for a widget made twice in one run; [LibraryError] is
    any exception raised inside pandas, numpy or the plotting libraries,
    with its message. *)
Inductive exn :=
| KeyError (key : option string)
| ZeroDivisionError
| DuplicateWidgetID
| LibraryError (msg : string).

(** [str(e)].  For [DuplicateWidgetID] the first sentence of the message,
    whose wording depends on the version of Streamlit; no handler of the
    script is ever handed that exception. *)
Definition str (e : exn) : string :=
  match e with
  | KeyError None => "None"
  | KeyError (Some k) => "'" ++ k ++ "'"
  | ZeroDivisionError => "division by zero"
  | DuplicateWidgetID =>
    "There are multiple identical st.selectbox widgets with the same generated key."
  | LibraryError msg => msg
  end.

(** A figure: the plotting call that drew on its axes, with its arguments. *)
Inductive plot :=
| sns_barplot (x : list scalar) (y : list nat)
| sns_lineplot (data : DataFrame) (y : option string)
| sns_histplot (data : Series) (kde : bool)
| sns_scatterplot (data : DataFrame) (x y : option string)
| sns_boxplot (data : DataFrame) (y : option string)
| ax_pie (x : list nat) (labels : list scalar) (autopct : string)
| sns_heatmap (data : matrix) (annot : bool) (cmap : string).

(** [round(x, ndigits)] of a statistic, as shown by [st.metric]; the
    rounding is not carried out. *)
Inductive metric_value := round_ (x : option R) (ndigits : nat).

(** What the script shows, call by call. *)
Inductive st_event :=
| st_header (body : string)
| st_subheader (body : string)
| st_warning (body : string)
| st_error (body : string)
| st_metric (label : string) (value : metric_value)
| st_write (body : string)
| st_write_outliers (detected : nat) (fraction : Q)
| st_write_counts (value_counts : list (scalar * nat))
| st_pyplot (fig : plot)
| st_line_chart (data : list (Z * float)).

(** Library behaviour that the script leaves open. *)
Record Lib := {
  (** the message of the exception that drawing and showing a figure
      raises, if it raises *)
  plot_error : plot -> option string;
  (** [Series.quantile] of a boolean column (numpy either interpolates on
      0 and 1 or rejects boolean operands, depending on its version) *)
  bool_quantile : Q -> list bool -> exn + float;
  (** [series.resample(freq).mean()] of a column indexed by a date column *)
  resample_mean : option string -> Series -> Series -> exn + list (Z * float);
  (** the order in which numpy's sort leaves the rows of equal count of a
      frequency table of more than [short_table] rows (see
      [value_counts]) *)
  quicksort_order : list nat -> list nat
}.

(** The choices made in the widgets: the chart kind, and for each
    [selectbox], by its label, the position of the chosen option. *)
Inductive graph :=
| BarChart | LineChart | Histogram | ScatterPlot | BoxPlot | PieChart | Heatmap.

Record UI := {
  selected_graph : graph;
  choice : string -> nat
}.

(** [st.selectbox(label, options)]: the chosen option, the first one by
    default, [None] when there is no option.  Streamlit raises when a run
    makes the same widget twice; the one call of the script that can, at
    line 200, is [metric_selectbox] below. *)
Definition selectbox (ui : UI) (label : string) (options : list string)
  : option string :=
  match nth_error options (choice ui label) with
  | Some o => Some o
  | None => hd_error options
  end.

(** A run of script code: it appends to the page and either returns a
    value or raises. *)
Definition St (A : Type) : Type := list st_event -> (exn + A) * list st_event.

Definition ret {A : Type} (a : A) : St A := fun page => (inr a, page).

Definition bind {A B : Type} (m : St A) (k : A -> St B) : St B :=
  fun page =>
    match m page with
    | (inr a, page') => k a page'
    | (inl e, page') => (inl e, page')
    end.

Definition raise {A : Type} (e : exn) : St A := fun page => (inl e, page).

Definition emit (ev : st_event) : St unit := fun page => (inr tt, page ++ [ev]).

Definition lift {A : Type} (r : exn + A) : St A :=
  match r with
  | inl e => raise e
  | inr a => ret a
  end.

(** [try: body except Exception as e: handler(e)] *)
Definition try_except {A : Type} (body : St A) (handler : exn -> St A) : St A :=
  fun page =>
    match body page with
    | (inl e, page') => handler e page'
    | (inr a, page') => (inr a, page')
    end.

End Streamlit.

Import Streamlit.

Declare Scope st_scope.
Delimit Scope st_scope with st.
Notation "x <- m ;; k" := (bind m (fun x => k))
  (at level 61, m at next level, right associativity) : st_scope.
Notation "m ;; k" := (bind m (fun _ => k))
  (at level 61, right associativity) : st_scope.
Open Scope st_scope.

(** ** The script *)

Section Script.
Variable lib : Lib.
Variable ui : UI.
Variable df : DataFrame.

(** [df[col]] inside the script. *)
Definition df_getitem (col : option string) : St Series :=
  match getitem df col with
  | Some s => ret s
  | None => raise (KeyError col)
  end.

(** A plotting call, up to showing the figure. *)
Definition plotting (p : plot) : St plot :=
  match plot_error lib p with
  | Some msg => raise (LibraryError msg)
  | None => ret p
  end.

(** *** Lines 86-94: the chart kinds *)

Inductive graph_class := categorical | numerical | correlation.

Definition graph_types (g : graph) : graph_class :=
  match g with
  | BarChart => categorical
  | LineChart => numerical
  | Histogram => numerical
  | ScatterPlot => numerical
  | BoxPlot => numerical
  | PieChart => categorical
  | Heatmap => correlation
  end.

(** *** Lines 100-147: [create_visualization] *)

(** How the chain of branches is left: by [return], or by falling through
    to [plt.tight_layout()] and [display_col.pyplot(fig)]. *)
Inductive control := Return | Fallthrough (fig : plot).

Definition object_columns : list string := columns (select_dtypes object df).
Definition number_columns : list string := columns (select_dtypes number df).

Definition visualization_branch : St control :=
  match selected_graph ui with
  | BarChart =>
    let col := selectbox ui "Select category:" object_columns in
    s <- df_getitem col ;;
    let value_counts := Series_value_counts (quicksort_order lib) s in
    fig <- plotting (sns_barplot (map fst value_counts) (map snd value_counts)) ;;
    ret (Fallthrough fig)
  | LineChart =>
    let col := selectbox ui "Select metric:" number_columns in
    fig <- plotting (sns_lineplot df col) ;;
    ret (Fallthrough fig)
  | Histogram =>
    let col := selectbox ui "Select metric:" number_columns in
    s <- df_getitem col ;;
    fig <- plotting (sns_histplot s true) ;;
    ret (Fallthrough fig)
  | ScatterPlot =>
    let x_col := selectbox ui "X-axis:" number_columns in
    let y_col := selectbox ui "Y-axis:" number_columns in
    fig <- plotting (sns_scatterplot df x_col y_col) ;;
    ret (Fallthrough fig)
  | BoxPlot =>
    let col := selectbox ui "Select metric:" number_columns in
    fig <- plotting (sns_boxplot df col) ;;
    ret (Fallthrough fig)
  | PieChart =>
    let col := selectbox ui "Select category:" object_columns in
    s <- df_getitem col ;;
    let value_counts := Series_value_counts (quicksort_order lib) s in
    fig <- plotting (ax_pie (map snd value_counts) (map fst value_counts) "%1.1f%%") ;;
    ret (Fallthrough fig)
  | Heatmap =>
    let numeric_df := select_dtypes number df in
    if (List.length (columns numeric_df) <? 2)%nat
    then emit (st_warning "Need at least 2 numeric columns for heatmap") ;;
         ret Return
    else fig <- plotting (sns_heatmap (corr numeric_df) true "coolwarm") ;;
         ret (Fallthrough fig)
  end.

Definition visualization_body : St unit :=
  c <- visualization_branch ;;
  match c with
  | Return => ret tt
  | Fallthrough fig => emit (st_pyplot fig)
  end.

Definition create_visualization : St unit :=
  try_except visualization_body
    (fun e => emit (st_error ("Visualization error: " ++ str e))).

(** *** Lines 153-193: analysis of the selected column *)

Definition multiplier : Q := 3 # 2.

Definition lower_fence (m : Q) (q1 q3 : float) : float :=
  let iqr := fsub q3 q1 in fsub q1 (fmul (Some m) iqr).

Definition upper_fence (m : Q) (q1 q3 : float) : float :=
  let iqr := fsub q3 q1 in fadd q3 (fmul (Some m) iqr).

(** The rows kept by
    [(df[c] < (q1 - 1.5 * iqr)) | (df[c] > (q3 + 1.5 * iqr))]. *)
Definition is_outlier (m : Q) (q1 q3 : float) (v : float) : bool :=
  flt v (lower_fence m q1 q3) || fgt v (upper_fence m q1 q3).

Definition outliers (m : Q) (q1 q3 : float) (vs : list float) : list float :=
  filter (is_outlier m q1 q3) vs.

(** [Series.quantile(q)] on the column as the script holds it. *)
Definition Series_quantile (q : Q) (s : Series) : exn + float :=
  match s with
  | BoolSeries vs => bool_quantile lib q vs
  | _ => inr (quantile q (to_float s))
  end.

(** [a / b] on Python integers. *)
Definition py_div (a b : nat) : exn + Q :=
  if (b =? 0)%nat then inl ZeroDivisionError
  else inr (Z.of_nat a # Pos.of_nat b).

Definition real (x : float) : option R := option_map Q2R x.

Definition numerical_analysis (s : Series) : St unit :=
  let vs := to_float s in
  emit (st_subheader "Numerical Analysis") ;;
  emit (st_metric "Mean" (round_ (real (mean vs)) 2)) ;;
  emit (st_metric "Median" (round_ (real (median vs)) 2)) ;;
  emit (st_metric "Standard Deviation" (round_ (std vs) 2)) ;;
  emit (st_metric "Variance" (round_ (real (var vs)) 2)) ;;
  emit (st_metric "Skewness" (round_ (skew vs) 2)) ;;
  emit (st_metric "Kurtosis" (round_ (real (kurtosis vs)) 2)) ;;
  emit (st_subheader "Outlier Detection") ;;
  q1 <- lift (Series_quantile (1 # 4) s) ;;
  q3 <- lift (Series_quantile (3 # 4) s) ;;
  let detected := List.length (outliers multiplier q1 q3 vs) in
  fraction <- lift (py_div detected (len df)) ;;
  emit (st_write_outliers detected fraction).

Definition categorical_analysis (s : Series) : St unit :=
  emit (st_subheader "Categorical Analysis") ;;
  let value_counts := Series_value_counts (quicksort_order lib) s in
  emit (st_write "#### Frequency Table") ;;
  emit (st_write_counts value_counts) ;;
  emit (st_write "#### Distribution") ;;
  fig <- plotting (ax_pie (map snd value_counts) (map fst value_counts) "%1.1f%%") ;;
  emit (st_pyplot fig).

Definition analysis : St unit :=
  let analysis_col := selectbox ui "Select column for detailed analysis:" (columns df) in
  s <- df_getitem analysis_col ;;
  if is_numeric_dtype s then numerical_analysis s else categorical_analysis s.

(** *** Lines 195-208: time series *)

Definition date_cols : list string := columns (select_dtypes datetime df).

(** Line 200.  Streamlit identifies a widget by its kind, its label and its
    options, and raises when a run makes the same widget twice.  The line,
    histogram and box plot branches of [create_visualization] have by then
    made a selectbox labelled "Select metric:" over the same columns (lines
    111, 115 and 124), the first call of their branch. *)
Definition metric_selectbox : St (option string) :=
  match selected_graph ui with
  | LineChart | Histogram | BoxPlot => raise DuplicateWidgetID
  | BarChart | ScatterPlot | PieChart | Heatmap =>
    ret (selectbox ui "Select metric:" number_columns)
  end.

Definition time_series : St unit :=
  if (0 <? List.length date_cols)%nat then
    emit (st_header "Time Series Analysis") ;;
    let date_col := selectbox ui "Select date column:" date_cols in
    metric_col <- metric_selectbox ;;
    index <- df_getitem date_col ;;
    df_date <- df_getitem metric_col ;;
    let resample_freq :=
      selectbox ui "Resampling frequency:" ["D"; "W"; "M"; "Q"; "Y"]%string in
    df_resampled <- lift (resample_mean lib resample_freq index df_date) ;;
    emit (st_line_chart df_resampled)
  else ret tt.

(** The script from line 100 on, on the loaded frame. *)
Definition script : St unit :=
  create_visualization ;;
  emit (st_header "Advanced Analysis") ;;
  analysis ;;
  time_series.

End Script.

(** The outlier count of a numeric column at multiplier [m]. *)
Definition outlier_count (m : Q) (vs : list float) : nat :=
  List.length (outliers m (quantile (1 # 4) vs) (quantile (3 # 4) vs) vs).

(** ** Column classes

    The script has no classification table of its own: a column's class is
    which of the three [select_dtypes] calls returns it. *)

Inductive ColumnType := Numeric | Categorical | Datetime.

Definition class_of (t : ColumnType) : dtype_class :=
  match t with
  | Numeric => number
  | Categorical => object
  | Datetime => datetime
  end.

Definition column_types (s : Series) : list ColumnType :=
  filter (fun t => in_class (class_of t) (dtype_of s))
         [Numeric; Categorical; Datetime].

(** The class of columns a chart kind draws from, by [graph_types]. *)
Definition required (g : graph) : dtype_class :=
  match graph_types g with
  | categorical => object
  | numerical => number
  | correlation => number
  end.

(** The options of the column [selectbox]es of each branch of
    [create_visualization] (for the heat map, the columns of [numeric_df]). *)
Definition offered (df : DataFrame) (g : graph) : list string :=
  match g with
  | BarChart | PieChart => object_columns df
  | LineChart | Histogram | ScatterPlot | BoxPlot => number_columns df
  | Heatmap => columns (select_dtypes number df)
  end.

(** The spec's reading of "parses as a date": an ISO 8601 calendar date,
    [YYYY-MM-DD].  Used only to state what the spec expects of a column of
    date strings. *)
Definition is_digit (a : ascii) : bool :=
  (48 <=? nat_of_ascii a)%nat && (nat_of_ascii a <=? 57)%nat.

Definition spec_parses_as_date (s : string) : bool :=
  match list_ascii_of_string s with
  | [y1; y2; y3; y4; d1; m1; m2; d2; a1; a2] =>
    forallb is_digit [y1; y2; y3; y4; m1; m2; a1; a2]
    && Ascii.eqb d1 "-" && Ascii.eqb d2 "-"
  | _ => false
  end.

(** Equality of floats up to the representation of the rational. *)
Definition feq (a b : float) : Prop :=
  match a, b with
  | Some x, Some y => x == y
  | None, None => True
  | _, _ => False
  end.

(** The order of a frequency table over the column [vs]: by descending
    count, and by first appearance among equal counts. *)
Definition freq_order {A : Type} (eq_dec : forall x y : A, {x = y} + {x <> y})
  (vs : list (option A)) (a b : A * nat) : Prop :=
  (snd b < snd a)%nat \/
  (snd a = snd b /\ (first_index eq_dec (fst a) vs < first_index eq_dec (fst b) vs)%nat).

(** ** Sample tables *)

Definition cases : Series := IntSeries [1; 2; 3; 4; 100]%Z.
Definition cases_df : DataFrame := [("cases"%string, cases)].

Definition region : Series :=
  ObjectSeries (map Some ["A"; "A"; "B"; "C"; "A"]%string).
Definition region_df : DataFrame := [("region"%string, region)].

(** A library that raises nothing and whose sort keeps equal counts in
    place. *)
Definition quiet : Lib :=
  {| plot_error := fun _ => None;
     bool_quantile := fun q vs => inr (quantile q (to_float (BoolSeries vs)));
     resample_mean := fun _ _ _ => inr [];
     quicksort_order := fun _ => [] |}.

Definition first_choices (g : graph) : UI :=
  {| selected_graph := g; choice := fun _ => 0%nat |}.

(** What [numerical_analysis] shows before the outlier line. *)
Definition numerical_summary (vs : list float) : list st_event :=
  [st_subheader "Numerical Analysis";
   st_metric "Mean" (round_ (real (mean vs)) 2);
   st_metric "Median" (round_ (real (median vs)) 2);
   st_metric "Standard Deviation" (round_ (std vs) 2);
   st_metric "Variance" (round_ (real (var vs)) 2);
   st_metric "Skewness" (round_ (skew vs) 2);
   st_metric "Kurtosis" (round_ (real (kurtosis vs)) 2);
   st_subheader "Outlier Detection"].

(** What [categorical_analysis] shows before the pie chart. *)
Definition categorical_summary (lib : Lib) (s : Series) : list st_event :=
  [st_subheader "Categorical Analysis";
   st_write "#### Frequency Table";
   st_write_counts (Series_value_counts (quicksort_order lib) s);
   st_write "#### Distribution"].

(** The pie chart of a frequency table. *)
Definition pie_of (lib : Lib) (s : Series) : plot :=
  ax_pie (map snd (Series_value_counts (quicksort_order lib) s))
         (map fst (Series_value_counts (quicksort_order lib) s)) "%1.1f%%".

(** The outcome of [create_visualization] once the figure [fig] is to be
    drawn: the figure is shown, or the library's error is reported. *)
Definition shown_or_error (lib : Lib) (page : list st_event) (fig : plot)
  : (exn + unit) * list st_event :=
  match plot_error lib fig with
  | None => (inr tt, page ++ [st_pyplot fig])
  | Some msg => (inr tt, page ++ [st_error ("Visualization error: " ++ msg)])
  end.

Definition deaths : Series := IntSeries [0; 1; 1; 2; 50]%Z.
Definition cases_deaths_df : DataFrame :=
  [("cases"%string, cases); ("deaths"%string, deaths)].


(** The message of numpy's [TypeError] for [b - a] on booleans. *)
Definition boolean_subtract : string :=
  "numpy boolean subtract, the `-` operator, is not supported, use the bitwise_xor, the `^` operator, or the logical_xor function instead.".

(** A numpy whose interpolation rejects boolean operands: the numpy that
    pandas 2 runs on, whose [quantile] interpolates with [b - a]. *)
Definition strict_numpy : Lib :=
  {| plot_error := fun _ => None;
     bool_quantile := fun _ _ => inl (LibraryError boolean_subtract);
     resample_mean := fun _ _ _ => inr [];
     quicksort_order := fun _ => [] |}.




(** A table whose only column holds no value. *)
Definition all_missing : Series := FloatSeries [NaN; NaN].
Definition all_missing_df : DataFrame := [("cases"%string, all_missing)].

(** A column of date strings, as [read_csv] without [parse_dates] leaves
    it, and a column of booleans. *)
Definition date_cells : list (option string) :=
  map Some ["2020-01-01"; "2020-01-02"]%string.
Definition date_strings : Series := ObjectSeries date_cells.
Definition flags : Series := BoolSeries [true; false].
Definition flags_df : DataFrame := [("flag"%string, flags)].

(** The summary shown for a numeric column without any value. *)
Definition nan_summary : list st_event :=
  [st_subheader "Numerical Analysis";
   st_metric "Mean" (round_ None 2);
   st_metric "Median" (round_ None 2);
   st_metric "Standard Deviation" (round_ None 2);
   st_metric "Variance" (round_ None 2);
   st_metric "Skewness" (round_ None 2);
   st_metric "Kurtosis" (round_ None 2);
   st_subheader "Outlier Detection"].

(** A table with a date column already of dtype [datetime64]. *)
Definition dated_df : DataFrame :=
  [("date"%string, DatetimeSeries [Some 0; Some 86400; Some 0]%Z);
   ("cases"%string, IntSeries [1; 2; 3]%Z)].

(** ** Lines 13-48 and 73: choosing and previewing the dataset *)

Definition DATA_DIR : string := "data/contagious-diseases".

(** [s.endswith(suffix)] *)
Definition endswith (s suffix : string) : bool :=
  let l := list_ascii_of_string s in
  let t := list_ascii_of_string suffix in
  (List.length t <=? List.length l)%nat &&
  String.eqb (string_of_list_ascii (skipn (List.length l - List.length t) l)) suffix.

(** Lines 15-25.  [listdir] is [os.listdir(DATA_DIR)], or [None] when
    [DATA_DIR] does not exist. *)
Definition local_files (listdir : option (list string)) : list string :=
  match listdir with
  | Some entries => filter (fun f => endswith f ".csv") entries
  | None => []
  end.

(** What [file_path] is bound to: a path under [DATA_DIR] (the entries of a
    directory hold no separator, so [os.path.join] puts one, [/] on POSIX,
    between), or the uploaded file. *)
Inductive file_path :=
| local_path (path : string)
| uploaded (file : string).

(** What lines 31-42 show. *)
Inductive app_event :=
| st_info (body : string)
| st_call (e : st_event).

(** Lines 31-44: the local selection, then the upload, which rebinds
    [file_path] when there is one. *)
Definition data_input (ui : UI) (listdir : option (list string))
  (uploaded_file : option string) : list app_event * option file_path :=
  let files := local_files listdir in
  let local :=
    match files with
    | [] =>
      ([st_info "No local datasets found in 'data/contagious-diseases' directory"],
       None)
    | _ :: _ =>
      ([st_call (st_subheader "Local Dataset")],
       option_map (fun selected_file => local_path (DATA_DIR ++ "/" ++ selected_file))
                  (selectbox ui "Select local dataset:" files))
    end in
  (fst local ++ [st_call (st_subheader "Upload Dataset")],
   match uploaded_file with
   | Some file => Some (uploaded file)
   | None => snd local
   end).

(** [df.head()]: the first five rows. *)
Definition series_head (n : nat) (s : Series) : Series :=
  match s with
  | IntSeries vs => IntSeries (firstn n vs)
  | FloatSeries vs => FloatSeries (firstn n vs)
  | BoolSeries vs => BoolSeries (firstn n vs)
  | ObjectSeries vs => ObjectSeries (firstn n vs)
  | DatetimeSeries vs => DatetimeSeries (firstn n vs)
  end.

Definition head (df : DataFrame) : DataFrame :=
  map (fun cs => (fst cs, series_head 5 (snd cs))) df.

(** A directory listing for the examples. *)
Definition sample_listing : option (list string) :=
  Some ["measles.csv"; "README.md"; "polio.csv"]%string.

(** * Properties *)

(** ** Sorted lists and interpolation *)

Lemma Qle_bool_transitive :
  Transitive (fun x y : Q => is_true (Qle_bool x y)).
Proof.
  intros x y z Hxy Hyz. unfold is_true in *.
  rewrite Qle_bool_iff in *. eapply Qle_trans; eassumption.
Qed.

Lemma StronglySorted_nth {A : Type} (R : A -> A -> Prop) (l : list A) (d : A) :
  StronglySorted R l ->
  forall i j, (i < j)%nat -> (j < List.length l)%nat -> R (nth i l d) (nth j l d).
Proof.
  induction 1 as [|a l Hs IH Hall]; intros i j Hij Hj; simpl in Hj.
  - lia.
  - destruct j as [|j]; [lia|]. destruct i as [|i]; simpl.
    + rewrite Forall_forall in Hall. apply Hall. apply nth_In. lia.
    + apply IH; lia.
Qed.

Lemma sort_nth_le (l : list Q) (d : Q) (i j : nat) :
  (i <= j)%nat -> (j < List.length (QSort.sort l))%nat ->
  nth i (QSort.sort l) d <= nth j (QSort.sort l) d.
Proof.
  intros Hij Hj.
  destruct (Nat.eq_dec i j) as [->|Hne]; [apply Qle_refl|].
  apply Qle_bool_iff.
  apply (StronglySorted_nth (fun x y => is_true (Qle_bool x y))); try lia.
  apply QSort.StronglySorted_sort, Qle_bool_transitive.
Qed.

Lemma lerp_between (a b t : Q) :
  a <= b -> 0 <= t -> t <= 1 -> a <= lerp a b t /\ lerp a b t <= b.
Proof. unfold lerp. intros. split; nra. Qed.

Lemma lerp_mono (a b t t' : Q) :
  a <= b -> t <= t' -> lerp a b t <= lerp a b t'.
Proof. unfold lerp. intros. nra. Qed.

Lemma Qfloor_frac (h : Q) : 0 <= h - inject_Z (Qfloor h) /\ h - inject_Z (Qfloor h) <= 1.
Proof.
  pose proof (Qfloor_le h). pose proof (Qlt_floor h).
  rewrite inject_Z_plus in H0. change (inject_Z 1) with 1 in H0. split; lra.
Qed.

(** The quantile of a sorted sample does not decrease with the level. *)
Lemma quantile_sorted_mono (l : list Q) (q q' : Q) (a b : Q) :
  0 <= q -> q <= q' -> q' <= 1 ->
  quantile_sorted q (QSort.sort l) = Some a ->
  quantile_sorted q' (QSort.sort l) = Some b ->
  a <= b.
Proof.
  intros Hq0 Hqq Hq1. unfold quantile_sorted.
  remember (QSort.sort l) as s eqn:Es.
  destruct s as [|x0 s']; [discriminate|].
  set (n := List.length (x0 :: s')).
  set (N := inject_Z (Z.of_nat n - 1)).
  assert (HN : 0 <= N).
  { unfold N. change 0 with (inject_Z 0). rewrite <- Zle_Qle. unfold n. simpl List.length. lia. }
  set (h := N * q). set (h' := N * q').
  assert (Hh0 : 0 <= h) by (unfold h; nra).
  assert (Hhh : h <= h') by (unfold h, h'; nra).
  assert (HhN : h' <= N) by (unfold h'; nra).
  assert (Hi0 : (0 <= Qfloor h)%Z).
  { rewrite <- (Qfloor_Z 0). apply Qfloor_resp_le. exact Hh0. }
  assert (Hii : (Qfloor h <= Qfloor h')%Z) by (apply Qfloor_resp_le; exact Hhh).
  assert (HiN : (Qfloor h' <= Z.of_nat n - 1)%Z).
  { rewrite <- (Qfloor_Z (Z.of_nat n - 1)). apply Qfloor_resp_le. exact HhN. }
  destruct (Qfloor_frac h) as [Hg0 Hg1]. destruct (Qfloor_frac h') as [Hg0' Hg1'].
  set (i := Z.to_nat (Qfloor h)). set (i' := Z.to_nat (Qfloor h')).
  intros Ha Hb.
  change (Some (lerp (nth i (x0 :: s') x0) (nth (Nat.min (i + 1) (n - 1)) (x0 :: s') x0)
                     (h - inject_Z (Qfloor h))) = Some a) in Ha.
  change (Some (lerp (nth i' (x0 :: s') x0) (nth (Nat.min (i' + 1) (n - 1)) (x0 :: s') x0)
                     (h' - inject_Z (Qfloor h'))) = Some b) in Hb.
  apply (f_equal (fun o => match o with Some v => v | None => 0 end)) in Ha, Hb.
  rewrite <- Ha, <- Hb. clear Ha Hb.
  assert (Hlen : List.length (QSort.sort l) = n) by (rewrite <- Es; reflexivity).
  assert (Hn : (1 <= n)%nat) by (unfold n; simpl; lia).
  assert (Hi'n : (i' < n)%nat) by (unfold i'; lia).
  assert (Hile : (i <= i')%nat) by (unfold i, i'; lia).
  assert (Hnth : forall u v, (u <= v)%nat -> (v < n)%nat -> nth u (x0 :: s') x0 <= nth v (x0 :: s') x0).
  { intros u v Huv Hv. rewrite Es. apply sort_nth_le; [exact Huv|lia]. }
  destruct (Nat.eq_dec i i') as [Heq|Hne].
  - rewrite <- Heq.
    assert (Hfl : Qfloor h = Qfloor h') by (unfold i, i' in Heq; lia).
    apply lerp_mono.
    + apply Hnth; lia.
    + rewrite Hfl. lra.
  - assert (Hlt : (i + 1 <= i')%nat) by lia.
    eapply Qle_trans.
    { apply (lerp_between _ _ _ (Hnth i (Nat.min (i + 1) (n - 1)) ltac:(lia) ltac:(lia)) Hg0 Hg1). }
    eapply Qle_trans.
    2:{ apply (lerp_between _ _ _ (Hnth i' (Nat.min (i' + 1) (n - 1)) ltac:(lia) ltac:(lia)) Hg0' Hg1'). }
    apply Hnth; lia.
Qed.

Lemma quartiles_ordered (vs : list float) (q1 q3 : Q) :
  quantile (1 # 4) vs = Some q1 -> quantile (3 # 4) vs = Some q3 -> q1 <= q3.
Proof.
  unfold quantile. apply quantile_sorted_mono; lra.
Qed.

(** ** The outlier rule *)

Lemma Qltb_lt (x y : Q) : Qltb x y = true <-> x < y.
Proof.
  unfold Qltb. rewrite negb_true_iff. split; intros H.
  - apply Qnot_le_lt. intros Hle. apply Qle_bool_iff in Hle. congruence.
  - destruct (Qle_bool y x) eqn:E; [|reflexivity].
    apply Qle_bool_iff in E. exfalso. apply (Qlt_not_le _ _ H E).
Qed.

Lemma is_outlier_iff (m q1 q3 x : Q) :
  is_outlier m (Some q1) (Some q3) (Some x) = true <->
  x < q1 - m * (q3 - q1) \/ q3 + m * (q3 - q1) < x.
Proof.
  unfold is_outlier, lower_fence, upper_fence, fgt, flt, fsub, fadd, fmul, lift2.
  rewrite orb_true_iff, !Qltb_lt. reflexivity.
Qed.

Lemma is_outlier_nan_value (m : Q) (q1 q3 : float) : is_outlier m q1 q3 NaN = false.
Proof.
  unfold is_outlier, fgt, flt, NaN.
  destruct (lower_fence m q1 q3), (upper_fence m q1 q3); reflexivity.
Qed.

Lemma is_outlier_nan_q1 (m : Q) (q3 v : float) : is_outlier m NaN q3 v = false.
Proof.
  unfold is_outlier, lower_fence, upper_fence, fgt, flt, fsub, fadd, fmul, lift2, NaN.
  destruct q3, v; reflexivity.
Qed.

Lemma is_outlier_nan_q3 (m : Q) (q1 v : float) : is_outlier m q1 NaN v = false.
Proof.
  unfold is_outlier, lower_fence, upper_fence, fgt, flt, fsub, fadd, fmul, lift2, NaN.
  destruct q1, v; reflexivity.
Qed.

Lemma filter_length_le {A : Type} (f g : A -> bool) (l : list A) :
  (forall x, In x l -> f x = true -> g x = true) ->
  (List.length (filter f l) <= List.length (filter g l))%nat.
Proof.
  induction l as [|a l IH]; intros H; simpl; [lia|].
  assert (IH' := IH (fun x Hx => H x (or_intror Hx))).
  destruct (f a) eqn:Ef.
  - rewrite (H a (or_introl eq_refl) Ef). simpl. lia.
  - destruct (g a); simpl; lia.
Qed.

(** A wider fence keeps no row that a narrower one drops. *)
Lemma is_outlier_antitone (vs : list float) (m1 m2 : Q) (v : float) :
  m1 <= m2 ->
  is_outlier m2 (quantile (1 # 4) vs) (quantile (3 # 4) vs) v = true ->
  is_outlier m1 (quantile (1 # 4) vs) (quantile (3 # 4) vs) v = true.
Proof.
  intros Hm.
  destruct (quantile (1 # 4) vs) as [q1|] eqn:E1; [|rewrite is_outlier_nan_q1; discriminate].
  destruct (quantile (3 # 4) vs) as [q3|] eqn:E3; [|rewrite is_outlier_nan_q3; discriminate].
  destruct v as [x|]; [|rewrite is_outlier_nan_value; discriminate].
  pose proof (quartiles_ordered vs q1 q3 E1 E3) as Hq.
  rewrite !is_outlier_iff. intros [H|H]; [left|right]; nra.
Qed.

(** Claim C4.  For every numeric column and multipliers [m1 <= m2], the
    rule with fences [q1 - m * iqr] and [q3 + m * iqr] counts at least as
    many outliers at [m1] as at [m2]: the count does not decrease when the
    multiplier (1.5 in the script) decreases. *)
Theorem C4_outlier_count_antitone (vs : list float) (m1 m2 : Q) :
  m1 <= m2 -> (outlier_count m2 vs <= outlier_count m1 vs)%nat.
Proof.
  intros Hm. unfold outlier_count, outliers.
  apply filter_length_le. intros v _. apply is_outlier_antitone. exact Hm.
Qed.

(** C4 at the column [cases], for the multipliers 1 and 1.5. *)
Lemma C4_witness :
  1 <= multiplier /\
  (outlier_count multiplier (to_float cases) <= outlier_count 1 (to_float cases))%nat.
Proof.
  split.
  - unfold multiplier. lra.
  - apply (C4_outlier_count_antitone (to_float cases) 1 multiplier).
    unfold multiplier. lra.
Defined.





(** ** The numerical analysis *)

Lemma lookup_In (df : DataFrame) (c : string) (s : Series) :
  lookup df c = Some s -> In (c, s) df.
Proof.
  induction df as [|[c' s'] df IH]; simpl; [discriminate|].
  destruct (String.eqb c c') eqn:E.
  - apply String.eqb_eq in E. intros [= ->]. left. congruence.
  - intros H. right. apply IH. exact H.
Qed.

(** In a well-formed frame [len(df)] is the length of every column, so the
    fraction of outliers is taken over the rows of the analysed column. *)
Lemma len_of_column (df : DataFrame) (c : string) (s : Series) :
  wf_frame df -> lookup df c = Some s -> series_len s = len df.
Proof.
  intros [_ Hlen] Hget. apply (Hlen c). apply lookup_In. exact Hget.
Qed.

Lemma py_div_pos (a b : nat) :
  (0 < b)%nat -> py_div a b = inr (Z.of_nat a # Pos.of_nat b).
Proof. unfold py_div. destruct b; [lia|reflexivity]. Qed.

Lemma numerical_analysis_eq (lib : Lib) (df : DataFrame) (s : Series) (page : list st_event) :
  dtype_of s = int64 \/ dtype_of s = float64 ->
  let vs := to_float s in
  let detected := outlier_count multiplier vs in
  numerical_analysis lib df s page =
  match py_div detected (len df) with
  | inr fraction =>
    (inr tt, page ++ numerical_summary vs ++ [st_write_outliers detected fraction])
  | inl e => (inl e, page ++ numerical_summary vs)
  end.
Proof.
  intros Hd vs detected.
  assert (Hq : forall q, Series_quantile lib q s = inr (quantile q vs)).
  { intros q. destruct s; simpl in Hd; try reflexivity; destruct Hd; discriminate. }
  unfold numerical_analysis, bind, emit, lift. fold vs. rewrite !Hq.
  unfold ret. fold (outlier_count multiplier vs). fold detected.
  unfold numerical_summary.
  destruct (py_div detected (len df)) as [e|f]; unfold raise, ret;
    repeat rewrite <- app_assoc; reflexivity.
Qed.

(** Claim C2.  For the column [cases = [1, 2, 3, 4, 100]] the quartiles by
    linear interpolation are [q1 = 2] and [q3 = 4], so [iqr = 2] and the
    fences are [-1] and [7]; the only outlier is [100], and the analysis
    reports 1 outlier, the fraction [1/5 = 0.20] of the 5 rows. *)
Theorem C2_cases_example :
  let vs := to_float cases in
  let q1 := quantile (1 # 4) vs in
  let q3 := quantile (3 # 4) vs in
  feq q1 (Some 2) /\ feq q3 (Some 4) /\ feq (fsub q3 q1) (Some 2) /\
  feq (lower_fence multiplier q1 q3) (Some (-1)) /\
  feq (upper_fence multiplier q1 q3) (Some 7) /\
  outliers multiplier q1 q3 vs = [Some (inject_Z 100)] /\
  py_div (List.length (outliers multiplier q1 q3 vs)) (len cases_df) = inr (1 # 5) /\
  1 # 5 == 20 / 100 /\
  forall lib page,
    numerical_analysis lib cases_df cases page =
    (inr tt, page ++ numerical_summary vs ++ [st_write_outliers 1 (1 # 5)]).
Proof.
  intros vs q1 q3.
  repeat split; try (vm_compute; reflexivity).
  intros lib page.
  rewrite (numerical_analysis_eq lib cases_df cases page (or_introl eq_refl)).
  reflexivity.
Qed.

(** ** Frequency tables *)

Section ValueCountsFacts.
Context {A : Type} (eq_dec : forall x y : A, {x = y} + {x <> y}).

Let occ := occurrences eq_dec.
Let fi := first_index eq_dec.
Let held := held eq_dec.

Lemma bump_keys (k : A) (t : list (A * nat)) :
  map fst (bump eq_dec k t) =
  if in_dec eq_dec k (map fst t) then map fst t else map fst t ++ [k].
Proof.
  induction t as [|[k' c] t IH]; simpl; [reflexivity|].
  destruct (eq_dec k k') as [->|Hne]; simpl.
  - destruct (eq_dec k' k'); [reflexivity|congruence].
  - rewrite IH. destruct (eq_dec k' k); [congruence|].
    destruct (in_dec eq_dec k (map fst t)); reflexivity.
Qed.

Lemma bump_held (k k' : A) (t : list (A * nat)) :
  held k' (bump eq_dec k t) =
  if eq_dec k' k then S (held k' t) else held k' t.
Proof.
  induction t as [|[k0 c] t IH]; simpl.
  - destruct (eq_dec k' k); reflexivity.
  - destruct (eq_dec k k0) as [->|Hne]; simpl.
    + destruct (eq_dec k' k0); reflexivity.
    + destruct (eq_dec k' k0) as [->|Hne'].
      * destruct (eq_dec k0 k); [congruence|reflexivity].
      * exact IH.
Qed.

Lemma bump_positive (k : A) (t : list (A * nat)) :
  Forall (fun e => 0 < snd e)%nat t ->
  Forall (fun e => 0 < snd e)%nat (bump eq_dec k t).
Proof.
  induction 1 as [|[k' c] t Hc Ht IH]; simpl.
  - constructor; [simpl; lia|constructor].
  - destruct (eq_dec k k'); constructor; simpl in *; auto; lia.
Qed.

Lemma bump_sum (k : A) (t : list (A * nat)) :
  list_sum (map snd (bump eq_dec k t)) = S (list_sum (map snd t)).
Proof.
  induction t as [|[k' c] t IH]; simpl; [reflexivity|].
  destruct (eq_dec k k'); simpl; [reflexivity|]. rewrite IH. lia.
Qed.

Lemma In_held (k : A) (c : nat) (t : list (A * nat)) :
  NoDup (map fst t) -> In (k, c) t -> held k t = c.
Proof.
  induction t as [|[k' c'] t IH]; simpl; intros Hnd Hin; [contradiction|].
  inversion Hnd as [|? ? Hni Hnd']; subst.
  destruct Hin as [Heq|Hin].
  - injection Heq as -> ->. destruct (eq_dec k k); [reflexivity|congruence].
  - destruct (eq_dec k k') as [->|Hne]; [|apply IH; assumption].
    exfalso. apply Hni. apply (in_map fst) in Hin. exact Hin.
Qed.

Lemma held_In (k : A) (t : list (A * nat)) :
  In k (map fst t) -> In (k, held k t) t.
Proof.
  induction t as [|[k' c'] t IH]; simpl; intros Hin; [contradiction|].
  destruct (eq_dec k k') as [->|Hne]; [left; reflexivity|].
  right. apply IH. destruct Hin as [Heq|Hin]; [congruence|exact Hin].
Qed.

Lemma occurrences_app (k : A) (vs ws : list (option A)) :
  occ k (vs ++ ws) = (occ k vs + occ k ws)%nat.
Proof.
  induction vs as [|[k'|] vs IH]; simpl; [reflexivity| |exact IH].
  destruct (eq_dec k k'); rewrite IH; reflexivity.
Qed.

Lemma first_index_present (k : A) (vs : list (option A)) :
  (0 < occ k vs)%nat -> (fi k vs < List.length vs)%nat.
Proof.
  induction vs as [|[k'|] vs IH]; simpl; [lia| |intros; apply IH in H; lia].
  destruct (eq_dec k k'); intros H; [lia|]. apply IH in H. lia.
Qed.

Lemma first_index_absent (k : A) (vs ws : list (option A)) :
  occ k vs = 0%nat -> fi k (vs ++ ws) = (List.length vs + fi k ws)%nat.
Proof.
  induction vs as [|[k'|] vs IH]; simpl; [reflexivity| |intros H; rewrite IH; auto].
  destruct (eq_dec k k'); intros H; [discriminate|]. rewrite IH; auto.
Qed.

Lemma first_index_app (k : A) (vs ws : list (option A)) :
  (0 < occ k vs)%nat -> fi k (vs ++ ws) = fi k vs.
Proof.
  induction vs as [|[k'|] vs IH]; simpl; [lia| |intros H; rewrite IH; auto].
  destruct (eq_dec k k'); intros H; [reflexivity|]. rewrite IH; auto.
Qed.

Lemma dropna_app {B : Type} (vs ws : list (option B)) :
  dropna (vs ++ ws) = dropna vs ++ dropna ws.
Proof. unfold dropna. apply flat_map_app. Qed.

Lemma tally_snoc (vs : list (option A)) (v : option A) :
  tally eq_dec (vs ++ [v]) = tally_step eq_dec (tally eq_dec vs) v.
Proof. unfold tally. rewrite fold_left_app. reflexivity. Qed.

Lemma sorted_first_index_app (K : list A) (vs ws : list (option A)) :
  (forall x, In x K -> 0 < occ x vs)%nat ->
  StronglySorted (fun a b => fi a vs < fi b vs)%nat K ->
  StronglySorted (fun a b => fi a (vs ++ ws) < fi b (vs ++ ws))%nat K.
Proof.
  induction K as [|a K IHK]; intros Hkeys Hsort; [constructor|].
  apply StronglySorted_inv in Hsort as [Hs Hall]. constructor.
  - apply IHK; [|exact Hs]. intros x Hx. apply Hkeys. right. exact Hx.
  - rewrite Forall_forall in *. intros b Hb. unfold fi.
    rewrite !first_index_app; [apply Hall; exact Hb| |].
    + apply Hkeys. right. exact Hb.
    + apply Hkeys. left. reflexivity.
Qed.

Lemma sorted_first_index_snoc (K : list A) (vs : list (option A)) (k : A) :
  (forall x, In x K -> 0 < occ x vs)%nat -> occ k vs = 0%nat ->
  StronglySorted (fun a b => fi a (vs ++ [Some k]) < fi b (vs ++ [Some k]))%nat K ->
  StronglySorted (fun a b => fi a (vs ++ [Some k]) < fi b (vs ++ [Some k]))%nat (K ++ [k]).
Proof.
  intros Hkeys Hk0.
  induction K as [|a K IHK]; intros Hsort; simpl.
  - repeat constructor.
  - apply StronglySorted_inv in Hsort as [Hs Hall]. constructor.
    + apply IHK; [|exact Hs]. intros x Hx. apply Hkeys. right. exact Hx.
    + apply Forall_app. split; [exact Hall|]. constructor; [|constructor].
      unfold fi. rewrite first_index_app by (apply Hkeys; left; reflexivity).
      rewrite (first_index_absent k vs _ Hk0).
      pose proof (first_index_present a vs (Hkeys a (or_introl eq_refl))). lia.
Qed.

(** The hash table after the rows [vs]. *)
Lemma tally_invariant (vs : list (option A)) :
  let t := tally eq_dec vs in
  NoDup (map fst t) /\
  Forall (fun e => 0 < snd e)%nat t /\
  (forall k, held k t = occ k vs) /\
  (forall k, In k (map fst t) <-> (0 < occ k vs)%nat) /\
  StronglySorted (fun a b => fi a vs < fi b vs)%nat (map fst t) /\
  list_sum (map snd t) = List.length (dropna vs).
Proof.
  induction vs as [|v vs IH] using rev_ind.
  - simpl. repeat split; try constructor; simpl; try lia; try contradiction.
  - destruct IH as (Hnd & Hpos & Hheld & Hkeys & Hsort & Hsum).
    rewrite tally_snoc. cbv zeta.
    assert (Hmono : forall ws,
               StronglySorted (fun a b => fi a (vs ++ ws) < fi b (vs ++ ws))%nat
                 (map fst (tally eq_dec vs))).
    { intros ws. apply sorted_first_index_app; [|exact Hsort].
      intros x Hx. apply Hkeys. exact Hx. }
    destruct v as [k|]; simpl tally_step.
    + refine (conj _ (conj _ (conj _ (conj _ (conj _ _))))).
      * rewrite bump_keys. destruct (in_dec eq_dec k (map fst (tally eq_dec vs))); [exact Hnd|].
        apply NoDup_app; [exact Hnd|repeat constructor; simpl; tauto|].
        intros x Hx [<-|[]]. contradiction.
      * apply bump_positive. exact Hpos.
      * intros k'. unfold held, occ. rewrite bump_held, occurrences_app.
        fold held occ. rewrite Hheld. simpl.
        destruct (eq_dec k' k); lia.
      * intros k0. unfold occ. rewrite bump_keys, occurrences_app. fold occ. simpl.
        destruct (in_dec eq_dec k (map fst (tally eq_dec vs))) as [Hin|Hni]; split.
        -- intros H. destruct (eq_dec k0 k); [lia|]. apply Hkeys in H. lia.
        -- intros H. destruct (eq_dec k0 k) as [->|Hne]; [exact Hin|].
           apply Hkeys. lia.
        -- rewrite in_app_iff. intros [H|[<-|[]]].
           ++ apply Hkeys in H. lia.
           ++ destruct (eq_dec k k); [lia|congruence].
        -- intros H. rewrite in_app_iff. destruct (eq_dec k0 k) as [->|Hne].
           ++ right. left. reflexivity.
           ++ left. apply Hkeys. lia.
      * rewrite bump_keys.
        destruct (in_dec eq_dec k (map fst (tally eq_dec vs))) as [Hin|Hni]; [apply Hmono|].
        apply sorted_first_index_snoc; [| |apply Hmono].
        -- intros x Hx. apply Hkeys. exact Hx.
        -- destruct (occ k vs) eqn:E; [reflexivity|]. exfalso. apply Hni, Hkeys. rewrite E. apply Nat.lt_0_succ.
      * rewrite bump_sum, Hsum, dropna_app, length_app. simpl. lia.
    + assert (Hocc : forall k, occ k (vs ++ [None]) = occ k vs).
      { intros k. unfold occ. rewrite occurrences_app. simpl. apply Nat.add_0_r. }
      refine (conj _ (conj _ (conj _ (conj _ (conj _ _))))); auto.
      * intros k. rewrite Hocc. apply Hheld.
      * intros k. rewrite Hocc. apply Hkeys.
      * rewrite Hsum, dropna_app, length_app. simpl. lia.
Qed.

Lemma insert_desc_perm (e : A * nat) (t : list (A * nat)) :
  Permutation (insert_desc e t) (e :: t).
Proof.
  induction t as [|e' t IH]; simpl; [reflexivity|].
  destruct (snd e' <=? snd e)%nat; [reflexivity|].
  rewrite IH. apply perm_swap.
Qed.

Lemma sort_desc_perm (t : list (A * nat)) : Permutation (sort_desc t) t.
Proof.
  induction t as [|e t IH]; simpl; [reflexivity|].
  rewrite insert_desc_perm. constructor. exact IH.
Qed.

Lemma insert_desc_sorted (vs : list (option A)) (e : A * nat) (t : list (A * nat)) :
  StronglySorted (freq_order eq_dec vs) t ->
  Forall (fun y => fi (fst e) vs < fi (fst y) vs)%nat t ->
  StronglySorted (freq_order eq_dec vs) (insert_desc e t).
Proof.
  induction t as [|e' t IH]; intros Hs Hpos; simpl.
  - repeat constructor.
  - apply StronglySorted_inv in Hs as [Hs Hall].
    apply Forall_cons_iff in Hpos as [Hpe Hpos].
    destruct (snd e' <=? snd e)%nat eqn:E.
    + apply Nat.leb_le in E. constructor.
      * constructor; assumption.
      * constructor.
        -- unfold freq_order, fi in *. destruct (Nat.eq_dec (snd e) (snd e')); [right|left]; lia.
        -- rewrite Forall_forall in *. intros y Hy.
           specialize (Hall y Hy). specialize (Hpos y Hy).
           unfold freq_order, fi in *.
           destruct (Nat.eq_dec (snd e) (snd y)); [right|left]; lia.
    + apply Nat.leb_gt in E. constructor.
      * apply IH; assumption.
      * apply (Permutation_Forall (Permutation_sym (insert_desc_perm e t))).
        constructor; [|exact Hall]. left. exact E.
Qed.

Lemma sort_desc_sorted (vs : list (option A)) (t : list (A * nat)) :
  StronglySorted (fun a b => fi a vs < fi b vs)%nat (map fst t) ->
  StronglySorted (freq_order eq_dec vs) (sort_desc t).
Proof.
  induction t as [|e t IH]; simpl; intros Hs; [constructor|].
  apply StronglySorted_inv in Hs as [Hs Hall].
  apply insert_desc_sorted; [apply IH; exact Hs|].
  apply (Permutation_Forall (Permutation_sym (sort_desc_perm t))).
  rewrite Forall_map in Hall. exact Hall.
Qed.

Lemma take_out_perm (i : nat) (t : list (A * nat)) (e : A * nat)
  (rest : list (A * nat)) :
  take_out i t = Some (e, rest) -> Permutation t (e :: rest).
Proof.
  revert i e rest. induction t as [|a t IH]; intros [|i] e rest; simpl;
    try discriminate.
  - intros [= <- <-]. reflexivity.
  - destruct (take_out i t) as [[x r]|] eqn:E; [|discriminate].
    intros [= <- <-]. rewrite (IH _ _ _ E). apply perm_swap.
Qed.

Lemma arrange_perm (order : list nat) (t : list (A * nat)) :
  Permutation (arrange order t) t.
Proof.
  revert t. induction order as [|i order IH]; intros t; simpl; [reflexivity|].
  destruct (take_out i t) as [[e rest]|] eqn:E; [|apply IH].
  rewrite (take_out_perm _ _ _ _ E). constructor. apply IH.
Qed.

Lemma insert_desc_by_count (e : A * nat) (t : list (A * nat)) :
  StronglySorted (fun a b => snd b <= snd a)%nat t ->
  StronglySorted (fun a b => snd b <= snd a)%nat (insert_desc e t).
Proof.
  induction t as [|e' t IH]; intros Hs; simpl.
  - repeat constructor.
  - apply StronglySorted_inv in Hs as [Hs Hall].
    destruct (snd e' <=? snd e)%nat eqn:E.
    + apply Nat.leb_le in E. constructor.
      * constructor; assumption.
      * constructor; [exact E|].
        rewrite Forall_forall in *. intros y Hy. specialize (Hall y Hy). lia.
    + apply Nat.leb_gt in E. constructor.
      * apply IH. exact Hs.
      * apply (Permutation_Forall (Permutation_sym (insert_desc_perm e t))).
        constructor; [lia|exact Hall].
Qed.

(** Whatever the order of the rows, sorting puts them in order of count. *)
Lemma sort_desc_by_count (t : list (A * nat)) :
  StronglySorted (fun a b => snd b <= snd a)%nat (sort_desc t).
Proof.
  induction t as [|e t IH]; simpl; [constructor|].
  apply insert_desc_by_count. exact IH.
Qed.

Lemma list_sum_perm (l l' : list nat) :
  Permutation l l' -> list_sum l = list_sum l'.
Proof. induction 1; simpl; lia. Qed.

Lemma value_counts_perm (quicksort_order : list nat -> list nat)
  (vs : list (option A)) :
  Permutation (value_counts eq_dec quicksort_order vs) (tally eq_dec vs).
Proof.
  unfold value_counts. cbv zeta.
  destruct (List.length (tally eq_dec vs) <=? short_table)%nat.
  - apply sort_desc_perm.
  - rewrite sort_desc_perm. apply arrange_perm.
Qed.

(** [value_counts]: the table is ordered by descending count, and among
    equal counts by first appearance when it has at most [short_table]
    rows; it holds each value present once, with the number of rows holding
    it; the counts add up to the number of non-missing rows. *)
Lemma value_counts_spec (quicksort_order : list nat -> list nat)
  (vs : list (option A)) :
  let t := value_counts eq_dec quicksort_order vs in
  StronglySorted (fun a b => snd b <= snd a)%nat t /\
  ((List.length t <= short_table)%nat ->
   StronglySorted (freq_order eq_dec vs) t) /\
  NoDup (map fst t) /\
  (forall k c, In (k, c) t <-> c = occ k vs /\ (0 < c)%nat) /\
  list_sum (map snd t) = List.length (dropna vs).
Proof.
  destruct (tally_invariant vs) as (Hnd & Hpos & Hheld & Hkeys & Hsort & Hsum).
  pose proof (value_counts_perm quicksort_order vs) as Hperm.
  cbv zeta.
  refine (conj _ (conj _ (conj _ (conj _ _)))).
  - unfold value_counts. cbv zeta.
    destruct (List.length (tally eq_dec vs) <=? short_table)%nat;
      apply sort_desc_by_count.
  - intros Hlen. rewrite (Permutation_length Hperm) in Hlen.
    unfold value_counts. cbv zeta.
    apply Nat.leb_le in Hlen. rewrite Hlen.
    apply sort_desc_sorted. exact Hsort.
  - apply (Permutation_NoDup (Permutation_map fst (Permutation_sym Hperm))). exact Hnd.
  - intros k c. split.
    + intros Hin. apply (Permutation_in _ Hperm) in Hin.
      rewrite Forall_forall in Hpos. split; [|apply (Hpos _ Hin)].
      rewrite <- Hheld. symmetry. apply In_held; assumption.
    + intros [-> Hc]. apply (Permutation_in _ (Permutation_sym Hperm)).
      rewrite <- Hheld. apply held_In. apply Hkeys. exact Hc.
  - rewrite (list_sum_perm _ _ (Permutation_map snd Hperm)). exact Hsum.
Qed.

End ValueCountsFacts.

Lemma categorical_analysis_eq (lib : Lib) (s : Series) (page : list st_event) :
  categorical_analysis lib s page =
  match plot_error lib (pie_of lib s) with
  | None => (inr tt, page ++ categorical_summary lib s ++ [st_pyplot (pie_of lib s)])
  | Some msg => (inl (LibraryError msg), page ++ categorical_summary lib s)
  end.
Proof.
  unfold categorical_analysis, bind, emit, plotting. fold (pie_of lib s).
  unfold categorical_summary.
  destruct (plot_error lib (pie_of lib s)); unfold raise, ret;
    repeat rewrite <- app_assoc; reflexivity.
Qed.




Example region_counts (lib : Lib) :
  Series_value_counts (quicksort_order lib) region =
  [(PyStr "A", 3); (PyStr "B", 1); (PyStr "C", 1)]%nat.
Proof. reflexivity. Qed.

(** ** The correlation matrix *)

Lemma in_dropna {B : Type} (x : B) (vs : list (option B)) :
  In x (dropna vs) <-> In (Some x) vs.
Proof.
  unfold dropna. rewrite in_flat_map. split.
  - intros ([y|] & Hin & Hx); simpl in Hx; [|contradiction].
    destruct Hx as [<-|[]]. exact Hin.
  - intros Hin. exists (Some x). split; [exact Hin|left; reflexivity].
Qed.














Lemma Qsum_map_ext_in {B : Type} (f g : B -> Q) (l : list B) :
  (forall x, In x l -> f x == g x) -> Qsum (map f l) == Qsum (map g l).
Proof.
  intros H. induction l as [|a l IH]; simpl; [reflexivity|].
  rewrite (H a (or_introl eq_refl)), (IH (fun x Hx => H x (or_intror Hx))).
  reflexivity.
Qed.












(** ** [create_visualization] *)





Lemma selectbox_nil (ui : UI) (label : string) : selectbox ui label [] = None.
Proof. unfold selectbox. destruct (choice ui label); reflexivity. Qed.

Lemma selectbox_In (ui : UI) (label : string) (options : list string) (c : string) :
  selectbox ui label options = Some c -> In c options.
Proof.
  unfold selectbox. destruct (nth_error options (choice ui label)) as [o|] eqn:E.
  - intros [= <-]. eapply nth_error_In. exact E.
  - destruct options; simpl; [discriminate|]. intros [= <-]. left. reflexivity.
Qed.

Lemma in_columns_select_dtypes (k : dtype_class) (df : DataFrame) (c : string) :
  In c (columns (select_dtypes k df)) <->
  exists s, In (c, s) df /\ in_class k (dtype_of s) = true.
Proof.
  unfold columns, select_dtypes. rewrite in_map_iff. split.
  - intros ([c' s] & <- & Hin). apply filter_In in Hin. exists s. exact Hin.
  - intros (s & Hin & Hk). exists (c, s). split; [reflexivity|].
    apply filter_In. split; assumption.
Qed.

Lemma create_visualization_no_column (lib : Lib) (ui : UI) (df : DataFrame)
  (page : list st_event) :
  offered df (selected_graph ui) = [] ->
  create_visualization lib ui df page =
  match selected_graph ui with
  | BarChart | PieChart | Histogram =>
    (inr tt, page ++ [st_error "Visualization error: None"])
  | LineChart => shown_or_error lib page (sns_lineplot df None)
  | ScatterPlot => shown_or_error lib page (sns_scatterplot df None None)
  | BoxPlot => shown_or_error lib page (sns_boxplot df None)
  | Heatmap =>
    (inr tt, page ++ [st_warning "Need at least 2 numeric columns for heatmap"])
  end.
Proof.
  intros Hoff.
  unfold create_visualization, try_except, visualization_body, visualization_branch, bind.
  unfold offered in Hoff.
  destruct (selected_graph ui); rewrite Hoff; rewrite ?selectbox_nil;
    try reflexivity;
    unfold shown_or_error, plotting; destruct (plot_error lib _); reflexivity.
Qed.

(** Claim C7, as amended.  The columns offered for a chart kind are exactly
    the columns whose dtype is in the class the kind requires, and a
    selected column is one of them.  When none is offered the selection is
    [None] and there is no check of its own: the bar chart, the pie chart and
    the histogram index the frame with [None], and the [KeyError] is
    reported as "Visualization error: None"; the heat map shows its warning;
    the line, scatter and box plots hand [None] to the plotting call, whose
    figure is shown unless the library raises.  No exception leaves
    [create_visualization]. *)
Theorem C7_select_offers_matching_columns (lib : Lib) (ui : UI) (df : DataFrame)
  (page : list st_event) :
  let g := selected_graph ui in
  (forall c, In c (offered df g) <->
             exists s, In (c, s) df /\ in_class (required g) (dtype_of s) = true) /\
  (forall label c, selectbox ui label (offered df g) = Some c -> In c (offered df g)) /\
  (offered df g = [] ->
   (forall label, selectbox ui label (offered df g) = None) /\
   create_visualization lib ui df page =
   match g with
   | BarChart | PieChart | Histogram =>
     (inr tt, page ++ [st_error "Visualization error: None"])
   | LineChart => shown_or_error lib page (sns_lineplot df None)
   | ScatterPlot => shown_or_error lib page (sns_scatterplot df None None)
   | BoxPlot => shown_or_error lib page (sns_boxplot df None)
   | Heatmap =>
     (inr tt, page ++ [st_warning "Need at least 2 numeric columns for heatmap"])
   end).
Proof.
  intros g. refine (conj _ (conj _ _)).
  - intros c. unfold offered, required, object_columns, number_columns.
    destruct g; simpl; apply in_columns_select_dtypes.
  - intros label c. apply selectbox_In.
  - intros Hoff. split.
    + intros label. rewrite Hoff. apply selectbox_nil.
    + apply create_visualization_no_column. exact Hoff.
Qed.

(** C7 for the pie chart of a table without a categorical column. *)
Lemma C7_witness :
  offered cases_df PieChart = [] /\
  create_visualization quiet (first_choices PieChart) cases_df [] =
  (inr tt, [st_error "Visualization error: None"]).
Proof.
  split; [reflexivity|].
  apply (proj2 (proj2 (C7_select_offers_matching_columns
                         quiet (first_choices PieChart) cases_df [])) eq_refl).
Defined.

(** Against C7 as stated: for the scatter plot of a table whose only column
    is categorical nothing is offered, and the script calls
    [sns.scatterplot(data=df, x=None, y=None)]; with a library that does not
    raise the figure is shown, and whatever the library does the script
    reports no error of its own. *)
Lemma C7_counterexample :
  offered region_df ScatterPlot = [] /\
  create_visualization quiet (first_choices ScatterPlot) region_df [] =
  (inr tt, [st_pyplot (sns_scatterplot region_df None None)]) /\
  forall lib, exists shown,
    create_visualization lib (first_choices ScatterPlot) region_df [] = (inr tt, [shown]) /\
    (shown = st_pyplot (sns_scatterplot region_df None None) \/
     exists msg, plot_error lib (sns_scatterplot region_df None None) = Some msg /\
                 shown = st_error ("Visualization error: " ++ msg)).
Proof.
  split; [reflexivity|]. split; [reflexivity|].
  intros lib.
  rewrite (create_visualization_no_column lib (first_choices ScatterPlot) region_df [] eq_refl).
  simpl. unfold shown_or_error.
  destruct (plot_error lib (sns_scatterplot region_df None None)) as [msg|] eqn:E.
  - eexists. split; [reflexivity|]. right. exists msg. split; reflexivity.
  - eexists. split; [reflexivity|]. left. reflexivity.
Qed.

(** ** Where exceptions go *)

Lemma create_visualization_returns (lib : Lib) (ui : UI) (df : DataFrame)
  (page : list st_event) :
  exists page', create_visualization lib ui df page = (inr tt, page').
Proof.
  unfold create_visualization, try_except.
  destruct (visualization_body lib ui df page) as [[e|[]] page']; eexists; reflexivity.
Qed.

Lemma analysis_eq (lib : Lib) (ui : UI) (df : DataFrame) (page : list st_event)
  (c : string) (s : Series) :
  selectbox ui "Select column for detailed analysis:" (columns df) = Some c ->
  lookup df c = Some s ->
  analysis lib ui df page =
  if is_numeric_dtype s then numerical_analysis lib df s page
  else categorical_analysis lib s page.
Proof.
  intros Hsel Hget. unfold analysis, bind, df_getitem. rewrite Hsel. unfold getitem.
  rewrite Hget. unfold ret. destruct (is_numeric_dtype s); reflexivity.
Qed.

(** The handler of [create_visualization] is handed a [KeyError] or an
    exception of the plotting libraries, nothing else. *)
Lemma visualization_body_raises (lib : Lib) (ui : UI) (df : DataFrame)
  (page page' : list st_event) (e : exn) :
  visualization_body lib ui df page = (inl e, page') ->
  (exists key, e = KeyError key) \/ exists msg, e = LibraryError msg.
Proof.
  unfold visualization_body, visualization_branch, bind, df_getitem, plotting,
    emit, ret, raise.
  destruct (selected_graph ui);
    repeat match goal with
           | |- context [getitem df ?c] => destruct (getitem df c)
           | |- context [plot_error lib ?p] => destruct (plot_error lib p)
           | |- context [(?a <? ?b)%nat] => destruct (a <? b)%nat
           end;
    intros H; inversion H; eauto.
Qed.

Lemma create_visualization_adds_one (lib : Lib) (ui : UI) (df : DataFrame)
  (page : list st_event) :
  exists ev, create_visualization lib ui df page = (inr tt, page ++ [ev]).
Proof.
  unfold create_visualization, try_except, visualization_body, visualization_branch,
    bind, df_getitem, plotting, emit, ret, raise.
  destruct (selected_graph ui);
    repeat match goal with
           | |- context [getitem df ?c] => destruct (getitem df c)
           | |- context [plot_error lib ?p] => destruct (plot_error lib p)
           | |- context [(?a <? ?b)%nat] => destruct (a <? b)%nat
           end;
    eexists; reflexivity.
Qed.

Lemma selectbox_single (ui : UI) (label c : string) : selectbox ui label [c] = Some c.
Proof.
  unfold selectbox. destruct (choice ui label) as [|[|n]]; reflexivity.
Qed.

(** The numerical analysis shows the six statistics before anything can go
    wrong in it. *)
Lemma numerical_analysis_shows_summary (lib : Lib) (df : DataFrame) (s : Series)
  (page : list st_event) :
  exists r rest,
    numerical_analysis lib df s page = (r, page ++ numerical_summary (to_float s) ++ rest).
Proof.
  unfold numerical_analysis, bind, emit, lift, numerical_summary.
  destruct (Series_quantile lib (1 # 4) s) as [e|q1]; unfold raise, ret.
  { exists (inl e), []. repeat rewrite <- app_assoc. reflexivity. }
  destruct (Series_quantile lib (3 # 4) s) as [e|q3]; unfold raise, ret.
  { exists (inl e), []. repeat rewrite <- app_assoc. reflexivity. }
  destruct (py_div _ (len df)) as [e|f]; unfold raise, ret.
  { exists (inl e), []. repeat rewrite <- app_assoc. reflexivity. }
  eexists (inr tt), [_]. repeat rewrite <- app_assoc. reflexivity.
Qed.

(** Claim C8.  [create_visualization] always returns: an exception raised
    while selecting or drawing is caught there and shown as "Visualization
    error: ..." .  The column analysis and the time series section have no
    handler: an exception raised there ends the run of the script.  So it is
    when the analysed column is boolean and numpy's [quantile] rejects
    booleans: the run ends with that exception, after the chart section,
    the header and the six statistics.  So it is, too, when drawing the pie
    chart of the categorical analysis raises, the very call whose exception
    [create_visualization] reports for its own pie chart. *)
Theorem C8_only_visualization_errors_are_caught (lib : Lib) (ui : UI) (df : DataFrame)
  (page : list st_event) :
  (exists page', create_visualization lib ui df page = (inr tt, page')) /\
  (forall e page',
      visualization_body lib ui df page = (inl e, page') ->
      create_visualization lib ui df page =
      (inr tt, page' ++ [st_error ("Visualization error: " ++ str e)])) /\
  (forall e page1 page2,
      create_visualization lib ui df page = (inr tt, page1) ->
      analysis lib ui df (page1 ++ [st_header "Advanced Analysis"]) = (inl e, page2) ->
      script lib ui df page = (inl e, page2)) /\
  (forall e page1 page2 page3,
      create_visualization lib ui df page = (inr tt, page1) ->
      analysis lib ui df (page1 ++ [st_header "Advanced Analysis"]) = (inr tt, page2) ->
      time_series lib ui df page2 = (inl e, page3) ->
      script lib ui df page = (inl e, page3)) /\
  (forall c vs e,
      selectbox ui "Select column for detailed analysis:" (columns df) = Some c ->
      lookup df c = Some (BoolSeries vs) ->
      bool_quantile lib (1 # 4) vs = inl e ->
      exists ev,
        script lib ui df page =
        (inl e, page ++ [ev; st_header "Advanced Analysis"]
                     ++ numerical_summary (to_float (BoolSeries vs)))) /\
  (forall c s msg,
      selectbox ui "Select column for detailed analysis:" (columns df) = Some c ->
      lookup df c = Some s ->
      is_numeric_dtype s = false ->
      plot_error lib (pie_of lib s) = Some msg ->
      exists ev,
        script lib ui df page =
        (inl (LibraryError msg),
         page ++ [ev; st_header "Advanced Analysis"] ++ categorical_summary lib s)).
Proof.
  refine (conj (create_visualization_returns lib ui df page)
               (conj _ (conj _ (conj _ (conj _ _))))).
  - intros e page' H. unfold create_visualization, try_except. rewrite H. reflexivity.
  - intros e page1 page2 H1 H2. unfold script, bind, emit. rewrite H1, H2. reflexivity.
  - intros e page1 page2 page3 H1 H2 H3. unfold script, bind, emit.
    rewrite H1, H2, H3. reflexivity.
  - intros c vs e Hsel Hget Hq.
    destruct (create_visualization_adds_one lib ui df page) as [ev Hcv].
    exists ev. unfold script, bind, emit. rewrite Hcv.
    rewrite (analysis_eq lib ui df _ c (BoolSeries vs) Hsel Hget).
    change (is_numeric_dtype (BoolSeries vs)) with true. cbv iota.
    unfold numerical_analysis, bind, emit, lift, Series_quantile. rewrite Hq.
    unfold raise, numerical_summary. repeat rewrite <- app_assoc. reflexivity.
  - intros c s msg Hsel Hget Hn Hp.
    destruct (create_visualization_adds_one lib ui df page) as [ev Hcv].
    exists ev. unfold script, bind, emit. rewrite Hcv.
    rewrite (analysis_eq lib ui df _ c s Hsel Hget), Hn, categorical_analysis_eq, Hp.
    repeat rewrite <- app_assoc. reflexivity.
Qed.

(** C8 at a table with one boolean column. *)
Lemma C8_witness :
  exists ev,
    script strict_numpy (first_choices Heatmap) flags_df [] =
    (inl (LibraryError boolean_subtract),
     [ev; st_header "Advanced Analysis"] ++ numerical_summary (to_float flags)).
Proof.
  apply (proj1 (proj2 (proj2 (proj2 (proj2 (C8_only_visualization_errors_are_caught
                                               strict_numpy (first_choices Heatmap)
                                               flags_df [])))))
           "flag"%string [true; false]); reflexivity.
Defined.

(** On that table the chart section shows the heat map warning, and the
    mean, 0.5, and the median are shown before [quantile] raises. *)
Example boolean_column_ends_the_run :
  fst (script strict_numpy (first_choices Heatmap) flags_df []) =
  inl (LibraryError boolean_subtract) /\
  firstn 3 (snd (script strict_numpy (first_choices Heatmap) flags_df [])) =
  [st_warning "Need at least 2 numeric columns for heatmap";
   st_header "Advanced Analysis";
   st_subheader "Numerical Analysis"] /\
  feq (mean (to_float flags)) (Some (1 # 2)).
Proof. repeat split. Qed.

(** ** Dispatch of the column analysis *)

(** Claim C10, as amended.  The analysis of the selected column has two
    branches, and which one is taken is decided by [is_numeric_dtype]: the
    numerical one for an [int64], [float64] or [bool] column; for an
    [object] or [datetime64] column the categorical one, which shows the
    subheader, the frequency table and the pie chart of the column and
    nothing else.  The [datetime] class is used for [date_cols] only: the
    columns offered for resampling, without which the time series section
    does nothing. *)
Theorem C10_binary_dispatch (lib : Lib) (ui : UI) (df : DataFrame)
  (page : list st_event) (c : string) (s : Series) :
  selectbox ui "Select column for detailed analysis:" (columns df) = Some c ->
  lookup df c = Some s ->
  let value_counts := Series_value_counts (quicksort_order lib) s in
  let fig := ax_pie (map snd value_counts) (map fst value_counts) "%1.1f%%" in
  (dtype_of s = int64 \/ dtype_of s = float64 \/ dtype_of s = bool_ ->
   analysis lib ui df page = numerical_analysis lib df s page /\
   exists r rest,
     analysis lib ui df page = (r, page ++ numerical_summary (to_float s) ++ rest)) /\
  (dtype_of s = object_ \/ dtype_of s = datetime64 ->
   analysis lib ui df page =
   match plot_error lib fig with
   | None =>
     (inr tt, page ++ [st_subheader "Categorical Analysis";
                       st_write "#### Frequency Table";
                       st_write_counts value_counts;
                       st_write "#### Distribution";
                       st_pyplot fig])
   | Some msg =>
     (inl (LibraryError msg), page ++ [st_subheader "Categorical Analysis";
                                       st_write "#### Frequency Table";
                                       st_write_counts value_counts;
                                       st_write "#### Distribution"])
   end) /\
  (forall c', In c' (date_cols df) <->
              exists s', In (c', s') df /\ dtype_of s' = datetime64) /\
  (date_cols df = [] -> forall page', time_series lib ui df page' = (inr tt, page')).
Proof.
  intros Hsel Hget value_counts fig.
  pose proof (analysis_eq lib ui df page c s Hsel Hget) as Ha.
  refine (conj _ (conj _ (conj _ _))).
  - intros Hd.
    assert (Hn : is_numeric_dtype s = true).
    { unfold is_numeric_dtype. destruct Hd as [->|[->| ->]]; reflexivity. }
    rewrite Hn in Ha. split; [exact Ha|]. rewrite Ha.
    apply numerical_analysis_shows_summary.
  - intros Hd.
    assert (Hn : is_numeric_dtype s = false).
    { unfold is_numeric_dtype. destruct Hd as [->| ->]; reflexivity. }
    rewrite Hn in Ha. rewrite Ha, categorical_analysis_eq.
    unfold pie_of, categorical_summary. fold value_counts. fold fig.
    destruct (plot_error lib fig); reflexivity.
  - intros c'. unfold date_cols. rewrite in_columns_select_dtypes.
    split; intros (s' & Hin & Hk); exists s'; (split; [exact Hin|]).
    + destruct (dtype_of s'); simpl in Hk; congruence.
    + rewrite Hk. reflexivity.
  - intros Hd page'. unfold time_series. rewrite Hd. reflexivity.
Qed.

(** C10 at the date column of [dated_df]. *)
Lemma C10_witness :
  analysis quiet (first_choices Heatmap) dated_df [] =
  (inr tt,
   [st_subheader "Categorical Analysis";
    st_write "#### Frequency Table";
    st_write_counts [(PyTimestamp 0, 2%nat); (PyTimestamp 86400, 1%nat)];
    st_write "#### Distribution";
    st_pyplot (ax_pie [2; 1]%nat [PyTimestamp 0; PyTimestamp 86400] "%1.1f%%")]).
Proof.
  exact (proj1 (proj2 (C10_binary_dispatch quiet (first_choices Heatmap) dated_df []
                         "date" (DatetimeSeries [Some 0; Some 86400; Some 0]%Z)
                         eq_refl eq_refl))
           (or_intror eq_refl)).
Defined.

(** Against C10 as stated: the boolean column [flags] is not of the Numeric
    class (no [select_dtypes] class holds it), yet its analysis is the
    numerical one, whatever is selected elsewhere and whatever the libraries
    do: the mean, 0.5, and the other statistics are shown, and no frequency
    table (with a numpy that rejects booleans in [quantile], the analysis
    ends there). *)
Lemma C10_counterexample :
  ~ In Numeric (column_types flags) /\
  (forall lib ui page,
      analysis lib ui flags_df page = numerical_analysis lib flags_df flags page /\
      exists r rest,
        analysis lib ui flags_df page =
        (r, page ++ numerical_summary (to_float flags) ++ rest)) /\
  feq (mean (to_float flags)) (Some (1 # 2)) /\
  analysis strict_numpy (first_choices Heatmap) flags_df [] =
  (inl (LibraryError boolean_subtract), numerical_summary (to_float flags)).
Proof.
  refine (conj _ (conj _ (conj _ _))).
  - simpl. tauto.
  - intros lib ui page.
    assert (Ha : analysis lib ui flags_df page = numerical_analysis lib flags_df flags page).
    { apply (analysis_eq lib ui flags_df page "flag" flags); [|reflexivity].
      apply selectbox_single. }
    split; [exact Ha|]. rewrite Ha. apply numerical_analysis_shows_summary.
  - reflexivity.
  - reflexivity.
Qed.

(** ** Columns without values *)

Lemma quantile_no_value (q : Q) (vs : list float) :
  dropna vs = [] -> quantile q vs = NaN.
Proof. unfold quantile. intros ->. reflexivity. Qed.

Lemma numerical_summary_no_value (vs : list float) :
  dropna vs = [] -> numerical_summary vs = nan_summary.
Proof.
  intros H. unfold numerical_summary, nan_summary, mean, median, std, var, skew, kurtosis.
  rewrite H. reflexivity.
Qed.

Lemma outlier_count_no_value (m : Q) (vs : list float) :
  dropna vs = [] -> outlier_count m vs = 0%nat.
Proof.
  intros H. unfold outlier_count, outliers. rewrite !(quantile_no_value _ _ H).
  induction vs as [|v vs IH]; [reflexivity|]. simpl filter.
  rewrite is_outlier_nan_q1. apply IH.
  destruct v; [discriminate H|exact H].
Qed.

(** Claim C5, as amended.  On an [int64] or [float64] column of a table with
    at least one row the numerical analysis returns a result, whatever the
    values; when every value is missing, each statistic shown is NaN and 0
    outliers, the fraction 0 of the rows, are reported.  With no row at all
    the fraction raises [ZeroDivisionError]. *)
Theorem C5_numerical_analysis_without_values (lib : Lib) (df : DataFrame) (s : Series)
  (page : list st_event) :
  dtype_of s = int64 \/ dtype_of s = float64 ->
  let vs := to_float s in
  let detected := outlier_count multiplier vs in
  ((0 < len df)%nat ->
   numerical_analysis lib df s page =
   (inr tt, page ++ numerical_summary vs
                 ++ [st_write_outliers detected (Z.of_nat detected # Pos.of_nat (len df))])) /\
  ((0 < len df)%nat -> dropna vs = [] ->
   numerical_analysis lib df s page =
   (inr tt, page ++ nan_summary ++ [st_write_outliers 0 (0 # Pos.of_nat (len df))])) /\
  (len df = 0%nat ->
   numerical_analysis lib df s page =
   (inl ZeroDivisionError, page ++ numerical_summary vs)).
Proof.
  intros Hd vs detected.
  pose proof (numerical_analysis_eq lib df s page Hd) as He. cbv zeta in He.
  fold vs in He. fold detected in He.
  refine (conj _ (conj _ _)).
  - intros Hlen. rewrite He, (py_div_pos _ _ Hlen). reflexivity.
  - intros Hlen Hnone. rewrite He, (py_div_pos _ _ Hlen).
    unfold detected. rewrite (outlier_count_no_value _ _ Hnone).
    rewrite (numerical_summary_no_value _ Hnone). reflexivity.
  - intros Hlen. rewrite He, Hlen. reflexivity.
Qed.

(** C5 at a column of two missing values. *)
Lemma C5_witness :
  numerical_analysis quiet all_missing_df all_missing [] =
  (inr tt, nan_summary ++ [st_write_outliers 0 (0 # 2)]).
Proof.
  apply (proj1 (proj2 (C5_numerical_analysis_without_values
                         quiet all_missing_df all_missing [] (or_intror eq_refl)))).
  - simpl. lia.
  - reflexivity.
Defined.

(** Against C5 as stated: the analysis of a column without any value
    returns, showing NaN for each statistic and 0 outliers. *)
Lemma C5_counterexample :
  dropna (to_float all_missing) = [] /\
  analysis quiet (first_choices Heatmap) all_missing_df [] =
  (inr tt,
   [st_subheader "Numerical Analysis";
    st_metric "Mean" (round_ None 2);
    st_metric "Median" (round_ None 2);
    st_metric "Standard Deviation" (round_ None 2);
    st_metric "Variance" (round_ None 2);
    st_metric "Skewness" (round_ None 2);
    st_metric "Kurtosis" (round_ None 2);
    st_subheader "Outlier Detection";
    st_write_outliers 0 (0 # 2)]).
Proof. split; vm_compute; reflexivity. Qed.

(** ** Column classes *)

Lemma column_types_by_dtype (s : Series) :
  column_types s =
  match dtype_of s with
  | int64 | float64 => [Numeric]
  | object_ => [Categorical]
  | datetime64 => [Datetime]
  | bool_ => []
  end.
Proof. unfold column_types. destruct (dtype_of s); reflexivity. Qed.

Lemma in_select_dtypes (k : dtype_class) (df : DataFrame) (c : string) (s : Series) :
  In (c, s) (select_dtypes k df) <-> In (c, s) df /\ in_class k (dtype_of s) = true.
Proof. unfold select_dtypes. rewrite filter_In. reflexivity. Qed.

(** Claim C1, as amended.  A column of the table whose dtype is not boolean
    is returned by exactly one of the three [select_dtypes] calls, and which
    one is decided by its dtype: [number] for [int64] and [float64],
    [object] for [object], [datetime] for [datetime64].  On these columns
    [is_numeric_dtype] agrees with the class [number]. *)
Theorem C1_column_classes (df : DataFrame) (c : string) (s : Series) :
  In (c, s) df ->
  dtype_of s <> bool_ ->
  (exists t, In (c, s) (select_dtypes (class_of t) df) /\
             (forall t', In (c, s) (select_dtypes (class_of t') df) -> t' = t) /\
             t = match dtype_of s with
                 | object_ => Categorical
                 | datetime64 => Datetime
                 | _ => Numeric
                 end) /\
  (forall t, In (c, s) (select_dtypes (class_of t) df) <-> column_types s = [t]) /\
  (is_numeric_dtype s = true <-> column_types s = [Numeric]).
Proof.
  intros Hin Hb. refine (conj _ (conj _ _)).
  3:{ rewrite column_types_by_dtype. unfold is_numeric_dtype.
      destruct (dtype_of s); split; congruence. }
  - exists (match dtype_of s with
            | object_ => Categorical | datetime64 => Datetime | _ => Numeric end).
    refine (conj _ (conj _ eq_refl)).
    + apply in_select_dtypes. split; [exact Hin|].
      destruct (dtype_of s); try reflexivity. congruence.
    + intros t' Ht'. apply in_select_dtypes in Ht' as [_ Ht'].
      destruct t', (dtype_of s); simpl in Ht'; congruence.
  - intros t. rewrite in_select_dtypes, column_types_by_dtype.
    destruct t, (dtype_of s); simpl; split; try congruence; try tauto;
      intros [_ H]; congruence.
Qed.

(** C1 at the column [cases] of a table of two numeric columns. *)
Lemma C1_witness :
  In ("cases"%string, cases) (select_dtypes number cases_deaths_df) /\
  column_types cases = [Numeric].
Proof.
  assert (Hin : In ("cases"%string, cases) cases_deaths_df) by (left; reflexivity).
  assert (Hb : dtype_of cases <> bool_) by discriminate.
  pose proof (C1_column_classes cases_deaths_df "cases" cases Hin Hb) as (_ & H & _).
  split.
  - apply (H Numeric). reflexivity.
  - reflexivity.
Defined.

(** Against C1 as stated: every value of [date_strings] parses as a date,
    yet the column is Categorical, not Datetime; and the boolean column
    [flags] is in no class at all, while the analysis takes it for
    numeric. *)
Lemma C1_counterexample :
  forallb spec_parses_as_date (dropna date_cells) = true /\
  column_types date_strings = [Categorical] /\
  column_types flags = [] /\
  is_numeric_dtype flags = true.
Proof. repeat split. Qed.

(** * Further properties of the script *)

(** ** Quartiles and fences *)

Lemma sort_length (l : list Q) : List.length (QSort.sort l) = List.length l.
Proof. symmetry. apply Permutation_length, QSort.Permuted_sort. Qed.

Lemma sort_nth_in (vs : list float) (d : Q) (i : nat) :
  (i < List.length (QSort.sort (dropna vs)))%nat ->
  In (Some (nth i (QSort.sort (dropna vs)) d)) vs.
Proof.
  intros Hi. apply in_dropna.
  apply (Permutation_in _ (Permutation_sym (QSort.Permuted_sort (dropna vs)))).
  apply nth_In. exact Hi.
Qed.

(** A quantile at a level between 0 and 1 lies within any bounds on the
    values. *)
Lemma quantile_within (vs : list float) (q m M a : Q) :
  0 <= q -> q <= 1 ->
  (forall x, In (Some x) vs -> m <= x /\ x <= M) ->
  quantile q vs = Some a -> m <= a /\ a <= M.
Proof.
  intros Hq0 Hq1 Hb. unfold quantile, quantile_sorted.
  remember (QSort.sort (dropna vs)) as s eqn:Es.
  destruct s as [|x0 s']; [discriminate|].
  set (n := List.length (x0 :: s')).
  set (N := inject_Z (Z.of_nat n - 1)).
  assert (Hn : (1 <= n)%nat) by (unfold n; simpl; lia).
  assert (HN : 0 <= N).
  { unfold N. change 0 with (inject_Z 0). rewrite <- Zle_Qle. lia. }
  set (h := N * q).
  assert (Hh0 : 0 <= h) by (unfold h; nra).
  assert (HhN : h <= N) by (unfold h; nra).
  assert (Hi0 : (0 <= Qfloor h)%Z).
  { rewrite <- (Qfloor_Z 0). apply Qfloor_resp_le. exact Hh0. }
  assert (HiN : (Qfloor h <= Z.of_nat n - 1)%Z).
  { rewrite <- (Qfloor_Z (Z.of_nat n - 1)). apply Qfloor_resp_le. exact HhN. }
  destruct (Qfloor_frac h) as [Hg0 Hg1].
  set (i := Z.to_nat (Qfloor h)).
  intros Ha.
  change (Some (lerp (nth i (x0 :: s') x0) (nth (Nat.min (i + 1) (n - 1)) (x0 :: s') x0)
                     (h - inject_Z (Qfloor h))) = Some a) in Ha.
  apply (f_equal (fun o => match o with Some v => v | None => 0 end)) in Ha.
  rewrite <- Ha. clear Ha.
  assert (Hlen : List.length (QSort.sort (dropna vs)) = n) by (rewrite <- Es; reflexivity).
  assert (Hin : forall j, (j < n)%nat -> m <= nth j (x0 :: s') x0 /\ nth j (x0 :: s') x0 <= M).
  { intros j Hj. apply Hb. rewrite Es. apply sort_nth_in. lia. }
  assert (Hle : nth i (x0 :: s') x0 <= nth (Nat.min (i + 1) (n - 1)) (x0 :: s') x0).
  { rewrite Es. apply sort_nth_le; unfold i; lia. }
  destruct (lerp_between _ _ _ Hle Hg0 Hg1) as [H1 H2].
  destruct (Hin i ltac:(unfold i; lia)) as [H3 _].
  destruct (Hin (Nat.min (i + 1) (n - 1)) ltac:(lia)) as [_ H4].
  split; lra.
Qed.

(** Lines 174-177, for finite values: [q1 <= q3], so [iqr] is not negative;
    both quartiles lie within the range of the values; the lower fence is
    [q1 - 1.5 * iqr], not above [q1], and the upper fence is
    [q3 + 1.5 * iqr], not below [q3]. *)
Theorem quartiles_and_fences (vs : list float) (m M q1 q3 : Q) :
  (forall x, In (Some x) vs -> m <= x /\ x <= M) ->
  quantile (1 # 4) vs = Some q1 ->
  quantile (3 # 4) vs = Some q3 ->
  m <= q1 /\ q1 <= q3 /\ q3 <= M /\
  0 <= q3 - q1 /\ q3 - q1 <= M - m /\
  exists lo hi,
    lower_fence multiplier (Some q1) (Some q3) = Some lo /\
    upper_fence multiplier (Some q1) (Some q3) = Some hi /\
    lo == q1 - (3 # 2) * (q3 - q1) /\
    hi == q3 + (3 # 2) * (q3 - q1) /\
    lo <= q1 /\ q3 <= hi.
Proof.
  intros Hb H1 H3.
  pose proof (quartiles_ordered vs q1 q3 H1 H3) as Hq.
  destruct (quantile_within vs (1 # 4) m M q1 ltac:(lra) ltac:(lra) Hb H1) as [Hm1 _].
  destruct (quantile_within vs (3 # 4) m M q3 ltac:(lra) ltac:(lra) Hb H3) as [_ HM3].
  repeat (split; [lra|]).
  exists (q1 - multiplier * (q3 - q1)), (q3 + multiplier * (q3 - q1)).
  unfold multiplier. repeat split; try reflexivity; try nra.
Qed.

(** For [cases = [1, 2, 3, 4, 100]]: the fences are [2 - 3] and [4 + 3]. *)
Lemma quartiles_and_fences_witness :
  exists q1 q3 lo hi,
    quantile (1 # 4) (to_float cases) = Some q1 /\
    quantile (3 # 4) (to_float cases) = Some q3 /\
    lower_fence multiplier (Some q1) (Some q3) = Some lo /\
    upper_fence multiplier (Some q1) (Some q3) = Some hi /\
    1 <= q1 /\ q1 <= q3 /\ q3 <= 100 /\
    lo == q1 - (3 # 2) * (q3 - q1) /\ hi == q3 + (3 # 2) * (q3 - q1).
Proof.
  assert (Hb : forall x, In (Some x) (to_float cases) -> 1 <= x /\ x <= 100).
  { simpl. intros x H.
    repeat (destruct H as [H|H]; [injection H as <-; split; unfold Qle; simpl; lia|]).
    contradiction. }
  destruct (quartiles_and_fences (to_float cases) 1 100 _ _ Hb eq_refl eq_refl)
    as (H1 & H2 & H3 & _ & _ & lo & hi & Hlo & Hhi & Elo & Ehi & _).
  eexists. eexists. exists lo, hi.
  split; [reflexivity|]. split; [reflexivity|].
  repeat split; assumption.
Defined.

(** ** What the outlier rule keeps and counts *)

Lemma outliers_length_le (m : Q) (q1 q3 : float) (vs : list float) :
  (List.length (outliers m q1 q3 vs) <= List.length (dropna vs))%nat.
Proof.
  unfold outliers. induction vs as [|[x|] vs IH]; simpl; [lia| |].
  - destruct (is_outlier m q1 q3 (Some x)); simpl; lia.
  - rewrite is_outlier_nan_value. exact IH.
Qed.

Lemma dropna_length_le {B : Type} (vs : list (option B)) :
  (List.length (dropna vs) <= List.length vs)%nat.
Proof. induction vs as [|[x|] vs IH]; simpl; lia. Qed.

Lemma to_float_length (s : Series) : List.length (to_float s) = series_len s.
Proof. destruct s; simpl; rewrite ?length_map; reflexivity. Qed.

(** Lines 177-178: a missing value is never an outlier, so on a numeric
    column of a well-formed table with at least one row the number reported
    is at most the number of values present, and the fraction reported lies
    between 0 and 1. *)
Theorem outlier_report_bounds (lib : Lib) (df : DataFrame) (c : string) (s : Series)
  (page : list st_event) :
  wf_frame df -> lookup df c = Some s ->
  dtype_of s = int64 \/ dtype_of s = float64 ->
  (0 < len df)%nat ->
  exists detected fraction,
    numerical_analysis lib df s page =
    (inr tt, page ++ numerical_summary (to_float s)
                  ++ [st_write_outliers detected fraction]) /\
    (detected <= List.length (dropna (to_float s)))%nat /\
    (detected <= len df)%nat /\
    0 <= fraction /\ fraction <= 1.
Proof.
  intros Hwf Hget Hd Hlen.
  exists (outlier_count multiplier (to_float s)).
  exists (Z.of_nat (outlier_count multiplier (to_float s)) # Pos.of_nat (len df)).
  assert (H1 : (outlier_count multiplier (to_float s) <= List.length (dropna (to_float s)))%nat)
    by apply outliers_length_le.
  assert (H2 : (outlier_count multiplier (to_float s) <= len df)%nat).
  { eapply Nat.le_trans; [exact H1|]. eapply Nat.le_trans; [apply dropna_length_le|].
    rewrite to_float_length, (len_of_column df c s Hwf Hget). apply Nat.le_refl. }
  split; [|split; [exact H1|split; [exact H2|]]].
  - rewrite (numerical_analysis_eq lib df s page Hd). cbv zeta.
    rewrite (py_div_pos _ _ Hlen). reflexivity.
  - assert (Hp : Z.pos (Pos.of_nat (len df)) = Z.of_nat (len df)).
    { rewrite <- positive_nat_Z, Nat2Pos.id by lia. reflexivity. }
    unfold Qle. simpl. rewrite Hp. split; lia.
Qed.

Lemma outlier_report_bounds_witness :
  exists detected fraction,
    numerical_analysis quiet cases_df cases [] =
    (inr tt, numerical_summary (to_float cases) ++ [st_write_outliers detected fraction]) /\
    (detected <= 5)%nat /\ 0 <= fraction /\ fraction <= 1.
Proof.
  assert (Hwf : wf_frame cases_df).
  { split; [repeat constructor; simpl; tauto|].
    intros c s [H|[]]. injection H as <- <-. reflexivity. }
  destruct (outlier_report_bounds quiet cases_df "cases" cases [] Hwf eq_refl
              (or_introl eq_refl) ltac:(simpl; lia))
    as (n & f & H1 & _ & H3 & H4 & H5).
  exists n, f. repeat split; assumption.
Defined.

(** Line 177: a value between the quartiles (inclusive) is never an
    outlier. *)
Theorem interquartile_values_are_kept (vs : list float) (q1 q3 x : Q) :
  quantile (1 # 4) vs = Some q1 ->
  quantile (3 # 4) vs = Some q3 ->
  q1 <= x -> x <= q3 ->
  is_outlier multiplier (quantile (1 # 4) vs) (quantile (3 # 4) vs) (Some x) = false.
Proof.
  intros H1 H3 Hlo Hhi. rewrite H1, H3.
  pose proof (quartiles_ordered vs q1 q3 H1 H3) as Hq.
  destruct (is_outlier multiplier (Some q1) (Some q3) (Some x)) eqn:E; [|reflexivity].
  apply is_outlier_iff in E. unfold multiplier in E. destruct E; nra.
Qed.

Lemma interquartile_values_are_kept_witness :
  is_outlier multiplier (quantile (1 # 4) (to_float cases))
                        (quantile (3 # 4) (to_float cases)) (Some 3) = false.
Proof.
  apply (interquartile_values_are_kept (to_float cases) (8 # 4) (16 # 4) 3);
    try reflexivity; unfold Qle; simpl; lia.
Defined.

Lemma filter_nothing {B : Type} (f : B -> bool) (l : list B) :
  (forall x, In x l -> f x = false) -> filter f l = [].
Proof.
  induction l as [|a l IH]; intros H; simpl; [reflexivity|].
  rewrite (H a (or_introl eq_refl)). apply IH. intros x Hx. apply H. right. exact Hx.
Qed.

(** Lines 174-178: a column whose values are all equal has no outlier. *)
Theorem constant_column_has_no_outlier (vs : list float) (v : Q) :
  (forall x, In (Some x) vs -> x == v) ->
  outlier_count multiplier vs = 0%nat.
Proof.
  intros Hc. unfold outlier_count, outliers.
  rewrite filter_nothing; [reflexivity|].
  intros [x|] Hin; [|apply is_outlier_nan_value].
  destruct (quantile (1 # 4) vs) as [q1|] eqn:E1; [|apply is_outlier_nan_q1].
  destruct (quantile (3 # 4) vs) as [q3|] eqn:E3; [|apply is_outlier_nan_q3].
  assert (Hb : forall y, In (Some y) vs -> v <= y /\ y <= v).
  { intros y Hy. rewrite (Hc y Hy). split; apply Qle_refl. }
  destruct (quantile_within vs (1 # 4) v v q1 ltac:(lra) ltac:(lra) Hb E1).
  destruct (quantile_within vs (3 # 4) v v q3 ltac:(lra) ltac:(lra) Hb E3).
  pose proof (Hc x Hin) as Hx.
  destruct (is_outlier multiplier (Some q1) (Some q3) (Some x)) eqn:E; [|reflexivity].
  apply is_outlier_iff in E. unfold multiplier in E. destruct E; nra.
Qed.

Lemma constant_column_has_no_outlier_witness :
  outlier_count multiplier [Some 3; NaN; Some 3; Some 3] = 0%nat.
Proof.
  apply (constant_column_has_no_outlier _ 3).
  simpl. intros x H.
  repeat (destruct H as [H|H]; [try discriminate H; injection H as <-; reflexivity|]).
  contradiction.
Defined.

(** ** The median *)





(** ** The coefficients of the heat map *)





(** ** Selections that exist *)

Lemma selectbox_some (ui : UI) (label : string) (options : list string) :
  options <> [] -> exists c, selectbox ui label options = Some c /\ In c options.
Proof.
  intros Hne. destruct (selectbox ui label options) as [c|] eqn:E.
  - exists c. split; [reflexivity|]. apply (selectbox_In ui label). exact E.
  - exfalso. unfold selectbox in E.
    destruct (nth_error options (choice ui label)); [discriminate|].
    destruct options; [congruence|discriminate].
Qed.

Lemma lookup_columns (df : DataFrame) (c : string) :
  In c (columns df) -> exists s, lookup df c = Some s.
Proof.
  induction df as [|[c' s'] df IH]; simpl; [contradiction|].
  intros H. destruct (String.eqb c c') eqn:E; [exists s'; reflexivity|].
  apply IH. destruct H as [H|H]; [|exact H].
  apply String.eqb_neq in E. congruence.
Qed.

Lemma lookup_unique (df : DataFrame) (c : string) (s : Series) :
  NoDup (columns df) -> In (c, s) df -> lookup df c = Some s.
Proof.
  induction df as [|[c' s'] df IH]; simpl; intros Hnd Hin; [contradiction|].
  apply NoDup_cons_iff in Hnd as [Hni Hnd].
  destruct Hin as [Heq|Hin].
  - injection Heq as -> ->. rewrite String.eqb_refl. reflexivity.
  - destruct (String.eqb c c') eqn:E; [|apply IH; assumption].
    apply String.eqb_eq in E. subst c'. exfalso. apply Hni.
    apply (in_map fst) in Hin. exact Hin.
Qed.

Lemma selected_column (ui : UI) (label : string) (k : dtype_class) (df : DataFrame) :
  NoDup (columns df) -> columns (select_dtypes k df) <> [] ->
  exists c s, selectbox ui label (columns (select_dtypes k df)) = Some c /\
              In c (columns (select_dtypes k df)) /\
              In (c, s) df /\ in_class k (dtype_of s) = true /\
              lookup df c = Some s.
Proof.
  intros Hnd Hne. destruct (selectbox_some ui label _ Hne) as (c & Hsel & Hin).
  destruct (proj1 (in_columns_select_dtypes k df c) Hin) as (s & Hs & Hk).
  exists c, s. repeat split; try assumption. apply lookup_unique; assumption.
Qed.

(** Lines 100-144: whatever is selected and whatever the libraries do,
    [create_visualization] returns and adds exactly one thing to the page:
    a figure, the heat map warning, or an error message. *)
Theorem create_visualization_shows_one_thing (lib : Lib) (ui : UI) (df : DataFrame)
  (page : list st_event) :
  exists ev,
    create_visualization lib ui df page = (inr tt, page ++ [ev]) /\
    match ev with
    | st_pyplot _ | st_error _ => True
    | st_warning _ => selected_graph ui = Heatmap
    | _ => False
    end.
Proof.
  unfold create_visualization, try_except, visualization_body, visualization_branch,
    bind, df_getitem, plotting, emit, ret, raise.
  destruct (selected_graph ui);
    repeat match goal with
           | |- context [getitem df ?c] => destruct (getitem df c)
           | |- context [plot_error lib ?p] => destruct (plot_error lib p)
           | |- context [(?a <? ?b)%nat] => destruct (a <? b)%nat
           end;
    eexists; (split; [reflexivity|]); simpl; auto.
Qed.

(** Lines 104-130: when the column names are unique and a column is
    offered, the selection is an existing column of the required dtype:
    no [KeyError] arises, and the figure is drawn from that column. *)
Theorem eligible_selection_is_drawn (lib : Lib) (ui : UI) (df : DataFrame)
  (page : list st_event) :
  NoDup (columns df) ->
  offered df (selected_graph ui) <> [] ->
  match selected_graph ui with
  | BarChart =>
    exists c s, In (c, s) df /\ dtype_of s = object_ /\
      create_visualization lib ui df page =
      shown_or_error lib page
        (sns_barplot (map fst (Series_value_counts (quicksort_order lib) s))
                     (map snd (Series_value_counts (quicksort_order lib) s)))
  | PieChart =>
    exists c s, In (c, s) df /\ dtype_of s = object_ /\
      create_visualization lib ui df page = shown_or_error lib page (pie_of lib s)
  | Histogram =>
    exists c s, In (c, s) df /\ in_class number (dtype_of s) = true /\
      create_visualization lib ui df page = shown_or_error lib page (sns_histplot s true)
  | LineChart =>
    exists c, In c (number_columns df) /\
      create_visualization lib ui df page =
      shown_or_error lib page (sns_lineplot df (Some c))
  | ScatterPlot =>
    exists x y, In x (number_columns df) /\ In y (number_columns df) /\
      create_visualization lib ui df page =
      shown_or_error lib page (sns_scatterplot df (Some x) (Some y))
  | BoxPlot =>
    exists c, In c (number_columns df) /\
      create_visualization lib ui df page =
      shown_or_error lib page (sns_boxplot df (Some c))
  | Heatmap => True
  end.
Proof.
  intros Hnd Hoff.
  unfold create_visualization, try_except, visualization_body, visualization_branch,
    bind, df_getitem, plotting, shown_or_error, pie_of.
  unfold offered in Hoff.
  destruct (selected_graph ui); [ | | | | | |exact I].
  - destruct (selected_column ui "Select category:" object df Hnd Hoff)
      as (c & s & Hsel & _ & Hin & Hk & Hget).
    exists c, s. split; [exact Hin|]. split.
    { destruct (dtype_of s); simpl in Hk; congruence. }
    unfold object_columns. rewrite Hsel. unfold getitem. rewrite Hget.
    unfold ret. destruct (plot_error lib _); reflexivity.
  - destruct (selectbox_some ui "Select metric:" _ Hoff) as (c & Hsel & Hin).
    exists c. split; [exact Hin|]. rewrite Hsel.
    destruct (plot_error lib _); reflexivity.
  - destruct (selected_column ui "Select metric:" number df Hnd Hoff)
      as (c & s & Hsel & _ & Hin & Hk & Hget).
    exists c, s. split; [exact Hin|]. split; [exact Hk|].
    unfold number_columns. rewrite Hsel. unfold getitem. rewrite Hget.
    unfold ret. destruct (plot_error lib _); reflexivity.
  - destruct (selectbox_some ui "X-axis:" _ Hoff) as (x & Hx & Hinx).
    destruct (selectbox_some ui "Y-axis:" _ Hoff) as (y & Hy & Hiny).
    exists x, y. split; [exact Hinx|]. split; [exact Hiny|]. rewrite Hx, Hy.
    destruct (plot_error lib _); reflexivity.
  - destruct (selectbox_some ui "Select metric:" _ Hoff) as (c & Hsel & Hin).
    exists c. split; [exact Hin|]. rewrite Hsel.
    destruct (plot_error lib _); reflexivity.
  - destruct (selected_column ui "Select category:" object df Hnd Hoff)
      as (c & s & Hsel & _ & Hin & Hk & Hget).
    exists c, s. split; [exact Hin|]. split.
    { destruct (dtype_of s); simpl in Hk; congruence. }
    unfold object_columns. rewrite Hsel. unfold getitem. rewrite Hget.
    unfold ret. destruct (plot_error lib _); reflexivity.
Qed.

Lemma eligible_selection_is_drawn_witness :
  exists c s, In (c, s) region_df /\ dtype_of s = object_ /\
    create_visualization quiet (first_choices PieChart) region_df [] =
    shown_or_error quiet [] (pie_of quiet s).
Proof.
  assert (Hnd : NoDup (columns region_df)) by (repeat constructor; simpl; tauto).
  assert (Hoff : offered region_df (selected_graph (first_choices PieChart)) <> [])
    by discriminate.
  exact (eligible_selection_is_drawn quiet (first_choices PieChart) region_df [] Hnd Hoff).
Defined.

(** ** The analysed column *)

(** Lines 153-156: the analysis raises [KeyError] exactly when the table has
    no column; otherwise the selected column exists and the analysis is the
    numerical or the categorical one of that column. *)
Theorem analysis_finds_its_column (lib : Lib) (ui : UI) (df : DataFrame)
  (page : list st_event) :
  (df = [] -> analysis lib ui df page = (inl (KeyError None), page)) /\
  (df <> [] ->
   exists c s,
     In c (columns df) /\ lookup df c = Some s /\
     analysis lib ui df page =
     if is_numeric_dtype s then numerical_analysis lib df s page
     else categorical_analysis lib s page).
Proof.
  split.
  - intros ->. unfold analysis, bind, df_getitem. simpl columns.
    rewrite selectbox_nil. reflexivity.
  - intros Hne.
    assert (Hc : columns df <> []) by (destruct df; [congruence|discriminate]).
    destruct (selectbox_some ui "Select column for detailed analysis:" _ Hc)
      as (c & Hsel & Hin).
    destruct (lookup_columns df c Hin) as [s Hget].
    exists c, s. split; [exact Hin|]. split; [exact Hget|].
    apply (analysis_eq lib ui df page c s Hsel Hget).
Qed.

Lemma analysis_finds_its_column_witness :
  analysis quiet (first_choices Heatmap) [] [] = (inl (KeyError None), []) /\
  exists c s,
    In c (columns region_df) /\ lookup region_df c = Some s /\
    analysis quiet (first_choices Heatmap) region_df [] =
    if is_numeric_dtype s then numerical_analysis quiet region_df s []
    else categorical_analysis quiet s [].
Proof.
  split.
  - apply (proj1 (analysis_finds_its_column quiet (first_choices Heatmap) [] [])).
    reflexivity.
  - apply (proj2 (analysis_finds_its_column quiet (first_choices Heatmap) region_df [])).
    discriminate.
Defined.

(** ** The time series section *)

(** Lines 196-208, with a date column.  After the line chart, the
    histogram or the box plot the selectbox of line 200 is a second widget
    labelled "Select metric:" over the same columns: the section shows its
    header and Streamlit raises.  After the other chart kinds: with no
    numeric column the section shows its header and raises [KeyError] for
    the metric [None]; with one, and unique column names, it resamples a
    [datetime64] column and a numeric column at one of the five
    frequencies, and shows the line chart unless the library raises. *)
Theorem time_series_selection (lib : Lib) (ui : UI) (df : DataFrame)
  (page : list st_event) :
  date_cols df <> [] ->
  (selected_graph ui = LineChart \/ selected_graph ui = Histogram \/
   selected_graph ui = BoxPlot ->
   time_series lib ui df page =
   (inl DuplicateWidgetID, page ++ [st_header "Time Series Analysis"])) /\
  (selected_graph ui = BarChart \/ selected_graph ui = ScatterPlot \/
   selected_graph ui = PieChart \/ selected_graph ui = Heatmap ->
   (number_columns df = [] ->
    time_series lib ui df page =
    (inl (KeyError None), page ++ [st_header "Time Series Analysis"])) /\
   (NoDup (columns df) -> number_columns df <> [] ->
    exists date_col index metric_col df_date resample_freq,
      In (date_col, index) df /\ dtype_of index = datetime64 /\
      In (metric_col, df_date) df /\ in_class number (dtype_of df_date) = true /\
      In resample_freq ["D"; "W"; "M"; "Q"; "Y"]%string /\
      time_series lib ui df page =
      match resample_mean lib (Some resample_freq) index df_date with
      | inr df_resampled =>
        (inr tt, page ++ [st_header "Time Series Analysis"; st_line_chart df_resampled])
      | inl e => (inl e, page ++ [st_header "Time Series Analysis"])
      end)).
Proof.
  intros Hd.
  assert (Hlen : (0 <? List.length (date_cols df))%nat = true).
  { apply Nat.ltb_lt. destruct (date_cols df); [congruence|simpl; lia]. }
  split.
  { intros Hg. unfold time_series, bind, emit, metric_selectbox. rewrite Hlen.
    destruct Hg as [->|[->| ->]]; reflexivity. }
  intros Hg.
  assert (Hm : metric_selectbox ui df = ret (selectbox ui "Select metric:" (number_columns df))).
  { unfold metric_selectbox. destruct Hg as [->|[->|[->| ->]]]; reflexivity. }
  split.
  - intros Hnum. unfold time_series, bind, df_getitem, emit. rewrite Hlen, Hm, Hnum.
    destruct (selectbox_some ui "Select date column:" _ Hd) as (dc & Hsel & Hin).
    rewrite Hsel, selectbox_nil.
    assert (Hcol : In dc (columns df)).
    { apply in_columns_select_dtypes in Hin as (s & Hs & _).
      apply (in_map fst) in Hs. exact Hs. }
    destruct (lookup_columns df dc Hcol) as [s Hget].
    unfold ret, getitem. rewrite Hget. reflexivity.
  - intros Hnd Hnum.
    destruct (selected_column ui "Select date column:" datetime df Hnd Hd)
      as (dc & di & Hsel & _ & Hin & Hk & Hget).
    destruct (selected_column ui "Select metric:" number df Hnd Hnum)
      as (mc & ms & Hsel' & _ & Hin' & Hk' & Hget').
    destruct (selectbox_some ui "Resampling frequency:" ["D"; "W"; "M"; "Q"; "Y"]%string
                ltac:(discriminate)) as (f & Hf & Hinf).
    exists dc, di, mc, ms, f.
    split; [exact Hin|]. split; [destruct (dtype_of di); simpl in Hk; congruence|].
    split; [exact Hin'|]. split; [exact Hk'|]. split; [exact Hinf|].
    unfold time_series, bind, df_getitem, emit, lift. rewrite Hlen, Hm.
    unfold date_cols, number_columns in *.
    unfold ret. rewrite Hsel, Hsel', Hf. unfold getitem. rewrite Hget, Hget'.
    destruct (resample_mean lib (Some f) di ms); unfold raise, ret;
      rewrite <- ?app_assoc; reflexivity.
Qed.

Lemma time_series_selection_witness :
  time_series quiet (first_choices LineChart) dated_df [] =
  (inl DuplicateWidgetID, [st_header "Time Series Analysis"]) /\
  time_series quiet (first_choices Heatmap)
    [("date"%string, DatetimeSeries [Some 0%Z])] [] =
  (inl (KeyError None), [st_header "Time Series Analysis"]) /\
  time_series quiet (first_choices Heatmap) dated_df [] =
  (inr tt, [st_header "Time Series Analysis"; st_line_chart []]).
Proof.
  refine (conj _ (conj _ _)).
  - apply (proj1 (time_series_selection quiet (first_choices LineChart) dated_df []
                    ltac:(discriminate))).
    left. reflexivity.
  - apply (proj1 (proj2 (time_series_selection quiet (first_choices Heatmap)
                           [("date"%string, DatetimeSeries [Some 0%Z])] []
                           ltac:(discriminate))
                    ltac:(right; right; right; reflexivity))).
    reflexivity.
  - assert (Hnd : NoDup (columns dated_df)).
    { repeat constructor; simpl; [|tauto]. intros [H|[]]. discriminate H. }
    destruct (proj2 (proj2 (time_series_selection quiet (first_choices Heatmap) dated_df []
                              ltac:(discriminate))
                       ltac:(right; right; right; reflexivity))
                Hnd ltac:(discriminate))
      as (dc & di & mc & ms & f & _ & _ & _ & _ & _ & H).
    rewrite H. reflexivity.
Defined.

(** ** Choosing the dataset *)

Lemma list_ascii_of_string_app (a b : string) :
  list_ascii_of_string (a ++ b) = (list_ascii_of_string a ++ list_ascii_of_string b)%list.
Proof. induction a as [|c a IH]; simpl; [reflexivity|]. rewrite IH. reflexivity. Qed.

Lemma string_of_list_ascii_app (l t : list ascii) :
  string_of_list_ascii (l ++ t) = (string_of_list_ascii l ++ string_of_list_ascii t)%string.
Proof. induction l as [|c l IH]; simpl; [reflexivity|]. rewrite IH. reflexivity. Qed.

(** [endswith] holds exactly of the strings that are a stem followed by the
    suffix. *)
Lemma endswith_iff (s suffix : string) :
  endswith s suffix = true <-> exists stem, s = (stem ++ suffix)%string.
Proof.
  unfold endswith. rewrite andb_true_iff, Nat.leb_le, String.eqb_eq. split.
  - intros [Hlen Heq].
    set (l := list_ascii_of_string s) in *.
    set (k := (List.length l - List.length (list_ascii_of_string suffix))%nat) in *.
    exists (string_of_list_ascii (firstn k l)).
    assert (H : s = string_of_list_ascii (firstn k l ++ skipn k l)).
    { rewrite firstn_skipn. symmetry. apply string_of_list_ascii_of_string. }
    rewrite string_of_list_ascii_app, Heq in H. exact H.
  - intros [stem ->]. rewrite list_ascii_of_string_app, length_app. split; [lia|].
    replace (List.length (list_ascii_of_string stem)
             + List.length (list_ascii_of_string suffix)
             - List.length (list_ascii_of_string suffix))%nat
      with (List.length (list_ascii_of_string stem)) by lia.
    rewrite skipn_app, skipn_all, Nat.sub_diag. simpl.
    apply string_of_list_ascii_of_string.
Qed.

(** Lines 24-48: an uploaded file takes precedence over the local selection;
    without an upload the file is an entry of [DATA_DIR] ending in [.csv],
    addressed under that directory; and [file_path] is unbound, so that the
    script stops, exactly when there is neither. *)
Theorem data_input_choice (ui : UI) (listdir : option (list string))
  (uploaded_file : option string) :
  let fp := snd (data_input ui listdir uploaded_file) in
  (forall file, uploaded_file = Some file -> fp = Some (uploaded file)) /\
  (uploaded_file = None ->
   local_files listdir <> [] ->
   exists entries stem,
     listdir = Some entries /\ In (stem ++ ".csv")%string entries /\
     fp = Some (local_path ("data/contagious-diseases/" ++ stem ++ ".csv"))) /\
  (fp = None <-> uploaded_file = None /\ local_files listdir = []).
Proof.
  unfold data_input. cbn [snd].
  refine (conj _ (conj _ _)).
  - intros file ->. reflexivity.
  - intros -> Hne.
    destruct (selectbox_some ui "Select local dataset:" _ Hne) as (f & Hsel & Hin).
    destruct (local_files listdir) as [|f0 fs] eqn:E; [congruence|].
    rewrite Hsel. cbn [option_map snd].
    destruct listdir as [entries|]; [|discriminate E].
    simpl in E. rewrite <- E in Hin. apply filter_In in Hin as [Hin Hcsv].
    apply endswith_iff in Hcsv as [stem ->].
    exists entries, stem. split; [reflexivity|]. split; [exact Hin|]. reflexivity.
  - destruct uploaded_file as [file|]; [split; [discriminate|intros [H _]; discriminate H]|].
    destruct (local_files listdir) as [|f0 fs] eqn:E.
    + split; auto.
    + destruct (selectbox_some ui "Select local dataset:" (f0 :: fs) ltac:(discriminate))
        as (f & Hsel & _).
      rewrite Hsel. cbn [option_map snd].
      split; [discriminate|intros [_ H]; discriminate H].
Qed.

Lemma data_input_choice_witness :
  snd (data_input (first_choices BarChart) sample_listing (Some "upload.csv"%string))
  = Some (uploaded "upload.csv") /\
  exists entries stem,
    sample_listing = Some entries /\ In (stem ++ ".csv")%string entries /\
    snd (data_input (first_choices BarChart) sample_listing None)
    = Some (local_path ("data/contagious-diseases/" ++ stem ++ ".csv")).
Proof.
  split.
  - apply (proj1 (data_input_choice (first_choices BarChart) sample_listing
                    (Some "upload.csv"%string))). reflexivity.
  - apply (proj1 (proj2 (data_input_choice (first_choices BarChart) sample_listing None)));
      [reflexivity|discriminate].
Defined.

(** ** The preview *)

Lemma series_head_len (s : Series) :
  series_len (series_head 5 s) = Nat.min 5 (series_len s).
Proof. destruct s; unfold series_head, series_len; apply length_firstn. Qed.

(** Line 73: the preview keeps every column, with its name and dtype, and
    holds the first rows of a well-formed table, five of them at most; it is
    a well-formed table again. *)
Theorem head_preview (df : DataFrame) :
  wf_frame df ->
  columns (head df) = columns df /\
  map (fun cs => dtype_of (snd cs)) (head df) = map (fun cs => dtype_of (snd cs)) df /\
  len (head df) = Nat.min 5 (len df) /\
  wf_frame (head df).
Proof.
  intros [Hnd Hlen].
  assert (Hcols : columns (head df) = columns df).
  { unfold head, columns. rewrite map_map. reflexivity. }
  assert (Hl : len (head df) = Nat.min 5 (len df)).
  { destruct df as [|[c s] df]; [reflexivity|]. apply series_head_len. }
  refine (conj Hcols (conj _ (conj Hl _))).
  - unfold head. rewrite map_map. apply map_ext. intros [c s]. destruct s; reflexivity.
  - split; [rewrite Hcols; exact Hnd|].
    intros c s Hin. unfold head in Hin. apply in_map_iff in Hin as ([c' s'] & [= <- <-] & Hin).
    cbn [snd]. rewrite series_head_len, Hl, (Hlen c' s' Hin). reflexivity.
Qed.

Lemma head_preview_witness :
  columns (head cases_deaths_df) = columns cases_deaths_df /\
  len (head cases_deaths_df) = 5%nat.
Proof.
  assert (Hwf : wf_frame cases_deaths_df).
  { split.
    - repeat constructor; simpl; [|tauto]. intros [H|[]]. discriminate H.
    - intros c s [H|[H|[]]]; injection H as <- <-; reflexivity. }
  destruct (head_preview cases_deaths_df Hwf) as (H1 & _ & H2 & _).
  split; [exact H1|exact H2].
Defined.

(** ** The most frequent value *)

(** Lines 106-107, 129-130, 182-192: the frequency table is empty exactly
    when the column holds no value; otherwise its first entry, the first bar
    and the first slice, is a most frequent value: no value occurs more
    often. *)
Theorem most_frequent_first (quicksort_order : list nat -> list nat) (s : Series) :
  match Series_value_counts quicksort_order s with
  | [] => dropna (keys s) = []
  | (k, c) :: _ =>
    c = occurrences scalar_eq_dec k (keys s) /\ (0 < c)%nat /\
    forall k', (occurrences scalar_eq_dec k' (keys s) <= c)%nat
  end.
Proof.
  destruct (value_counts_spec scalar_eq_dec quicksort_order (keys s))
    as (Hs & _ & _ & Hin & Hsum).
  unfold Series_value_counts.
  destruct (value_counts scalar_eq_dec quicksort_order (keys s)) as [|[k c] t].
  - simpl in Hsum. apply length_zero_iff_nil. symmetry. exact Hsum.
  - destruct (proj1 (Hin k c) (or_introl eq_refl)) as [Hc Hpos].
    split; [exact Hc|]. split; [exact Hpos|]. intros k'.
    destruct (Nat.eq_dec (occurrences scalar_eq_dec k' (keys s)) 0) as [H0|Hne]; [lia|].
    assert (Hk' : In (k', occurrences scalar_eq_dec k' (keys s)) ((k, c) :: t)).
    { apply Hin. split; [reflexivity|lia]. }
    destruct Hk' as [Heq|Hk']; [injection Heq as _ <-; lia|].
    apply StronglySorted_inv in Hs as [_ Hall]. rewrite Forall_forall in Hall.
    specialize (Hall _ Hk'). simpl in Hall. lia.
Qed.

(** ** Outliers and the order of the rows *)

Lemma is_outlier_feq (m : Q) (q1 q3 q1' q3' v : float) :
  feq q1 q1' -> feq q3 q3' ->
  is_outlier m q1 q3 v = is_outlier m q1' q3' v.
Proof.
  destruct v as [x|]; [|rewrite !is_outlier_nan_value; reflexivity].
  destruct q1 as [a|], q1' as [a'|]; simpl; try contradiction;
    [|intros _ _; rewrite !is_outlier_nan_q1; reflexivity].
  destruct q3 as [c|], q3' as [c'|]; simpl; try contradiction;
    [|intros _ _; rewrite !is_outlier_nan_q3; reflexivity].
  intros Ha Hc.
  destruct (is_outlier m (Some a) (Some c) (Some x)) eqn:E1,
           (is_outlier m (Some a') (Some c') (Some x)) eqn:E2; try reflexivity.
  - apply is_outlier_iff in E1. rewrite Ha, Hc in E1. apply is_outlier_iff in E1. congruence.
  - apply is_outlier_iff in E2. rewrite <- Ha, <- Hc in E2. apply is_outlier_iff in E2. congruence.
Qed.

Lemma Forall2_Qeq_refl (l : list Q) : Forall2 Qeq l l.
Proof. induction l; constructor; [reflexivity|assumption]. Qed.

Lemma Forall2_Qeq_in_l (l m : list Q) (y : Q) :
  Forall2 Qeq l m -> In y m -> exists x, In x l /\ x == y.
Proof.
  induction 1 as [|a b l m Hab _ IH]; intros Hin; [contradiction|].
  destruct Hin as [<-|Hin].
  - exists a. split; [left; reflexivity|exact Hab].
  - destruct (IH Hin) as (x & Hx & Hxy). exists x. split; [right; exact Hx|exact Hxy].
Qed.

(** Two sorted lists holding the same values agree position by position. *)
Lemma sorted_same_values (l1 : list Q) :
  forall l2 m,
    StronglySorted Qle l1 -> StronglySorted Qle l2 ->
    Forall2 Qeq l2 m -> Permutation l1 m -> Forall2 Qeq l1 l2.
Proof.
  induction l1 as [|a l1 IH]; intros l2 m Hs1 Hs2 Hm Hp.
  - apply Permutation_nil in Hp. subst m. inversion Hm. constructor.
  - destruct m as [|b' m']; [apply Permutation_sym, Permutation_nil in Hp; discriminate|].
    inversion Hm as [|b ? l2' ? Hbb Hm' E1 E2]; subst. clear Hm.
    apply StronglySorted_inv in Hs1 as [Hs1 Hall1].
    apply StronglySorted_inv in Hs2 as [Hs2 Hall2].
    rewrite Forall_forall in Hall1, Hall2.
    assert (Hab : a == b).
    { apply Qle_antisym.
      - rewrite Hbb.
        assert (Hin : In b' (a :: l1)).
        { apply (Permutation_in _ (Permutation_sym Hp)). left. reflexivity. }
        destruct Hin as [<-|Hin]; [apply Qle_refl|apply Hall1; exact Hin].
      - assert (Hin : In a (b' :: m')).
        { apply (Permutation_in _ Hp). left. reflexivity. }
        destruct Hin as [<-|Hin]; [rewrite Hbb; apply Qle_refl|].
        destruct (Forall2_Qeq_in_l _ _ _ Hm' Hin) as (x & Hx & Hxa).
        rewrite <- Hxa. apply Hall2. exact Hx. }
    constructor; [exact Hab|].
    assert (Hin : In a (b' :: m')).
    { apply (Permutation_in _ Hp). left. reflexivity. }
    apply in_split in Hin as (x & y & Exy).
    rewrite Exy in Hp. apply Permutation_cons_app_inv in Hp.
    destruct x as [|b'' x'].
    + injection Exy as -> ->. apply (IH l2' y); assumption.
    + injection Exy as <- ->.
      apply Forall2_app_inv_r in Hm' as (u & v & Hu & Hv & ->).
      inversion Hv as [|c ? v' ? Hca Hv' E1 E2]; subst. clear Hv.
      apply (IH (u ++ c :: v') (x' ++ b' :: y)); try assumption.
      * apply Forall2_app; [exact Hu|]. constructor; [|exact Hv'].
        rewrite Hca, Hab. exact Hbb.
      * rewrite Hp. simpl. apply Permutation_middle.
Qed.

Lemma sort_sorted_Qle (l : list Q) : StronglySorted Qle (QSort.sort l).
Proof.
  pose proof (QSort.StronglySorted_sort l Qle_bool_transitive) as H.
  induction H as [|a s Hs IH Hall]; constructor; [exact IH|].
  rewrite Forall_forall in *. intros x Hx. apply Qle_bool_iff. apply Hall. exact Hx.
Qed.

Lemma dropna_perm {B : Type} (vs ws : list (option B)) :
  Permutation vs ws -> Permutation (dropna vs) (dropna ws).
Proof.
  induction 1 as [|x vs ws _ IH|x y vs|vs ws us _ IH1 _ IH2].
  - reflexivity.
  - destruct x; simpl; [constructor|]; exact IH.
  - destruct x, y; simpl; try reflexivity. apply perm_swap.
  - etransitivity; eassumption.
Qed.

Lemma Forall2_Qeq_nth (l1 l2 : list Q) (d1 d2 : Q) (i : nat) :
  Forall2 Qeq l1 l2 -> d1 == d2 -> nth i l1 d1 == nth i l2 d2.
Proof.
  intros H Hd. revert i. induction H as [|a b l1 l2 Hab _ IH]; intros [|i]; simpl;
    try assumption. apply IH.
Qed.

Lemma quantile_sorted_Qeq (q : Q) (l1 l2 : list Q) :
  Forall2 Qeq l1 l2 -> feq (quantile_sorted q l1) (quantile_sorted q l2).
Proof.
  intros H. pose proof (Forall2_length H) as Hlen.
  destruct H as [|a b l1 l2 Hab H]; [exact I|].
  assert (H' : Forall2 Qeq (a :: l1) (b :: l2)) by (constructor; assumption).
  unfold quantile_sorted. rewrite Hlen. cbn [feq]. unfold lerp.
  rewrite (Forall2_Qeq_nth _ _ a b (Z.to_nat (Qfloor (inject_Z (Z.of_nat (List.length (b :: l2)) - 1) * q))) H' Hab).
  rewrite (Forall2_Qeq_nth _ _ a b
             (Nat.min (Z.to_nat (Qfloor (inject_Z (Z.of_nat (List.length (b :: l2)) - 1) * q)) + 1)
                      (List.length (b :: l2) - 1)) H' Hab).
  reflexivity.
Qed.

Lemma quantile_perm (q : Q) (vs ws : list float) :
  Permutation vs ws -> feq (quantile q vs) (quantile q ws).
Proof.
  intros Hp. unfold quantile. apply quantile_sorted_Qeq.
  apply (sorted_same_values _ _ (QSort.sort (dropna ws))).
  - apply sort_sorted_Qle.
  - apply sort_sorted_Qle.
  - apply Forall2_Qeq_refl.
  - rewrite <- (QSort.Permuted_sort (dropna vs)), <- (QSort.Permuted_sort (dropna ws)).
    apply dropna_perm. exact Hp.
Qed.

Lemma filter_length_perm {B : Type} (p : B -> bool) (l l' : list B) :
  Permutation l l' -> List.length (filter p l) = List.length (filter p l').
Proof.
  induction 1 as [|x l l' _ IH|x y l|l l' l'' _ IH1 _ IH2]; simpl.
  - reflexivity.
  - destruct (p x); simpl; rewrite IH; reflexivity.
  - destruct (p x), (p y); reflexivity.
  - rewrite IH1. exact IH2.
Qed.

(** Lines 174-178: the quartiles, and with them the number of outliers, do
    not depend on the order of the rows. *)
Theorem outliers_row_order_invariant (vs ws : list float) :
  Permutation vs ws ->
  feq (quantile (1 # 4) vs) (quantile (1 # 4) ws) /\
  feq (quantile (3 # 4) vs) (quantile (3 # 4) ws) /\
  outlier_count multiplier vs = outlier_count multiplier ws.
Proof.
  intros Hp.
  pose proof (quantile_perm (1 # 4) vs ws Hp) as H1.
  pose proof (quantile_perm (3 # 4) vs ws Hp) as H3.
  refine (conj H1 (conj H3 _)).
  unfold outlier_count, outliers.
  rewrite (filter_ext _ _ (fun v => is_outlier_feq multiplier _ _ _ _ v H1 H3)).
  apply filter_length_perm. exact Hp.
Qed.

Lemma outliers_row_order_invariant_witness :
  outlier_count multiplier (map (fun z => Some (inject_Z z)) [100; 3; 1; 4; 2]%Z)
  = outlier_count multiplier (map (fun z => Some (inject_Z z)) [3; 100; 1; 4; 2]%Z).
Proof.
  apply (outliers_row_order_invariant
           (map (fun z => Some (inject_Z z)) [100; 3; 1; 4; 2]%Z)
           (map (fun z => Some (inject_Z z)) [3; 100; 1; 4; 2]%Z)).
  apply perm_swap.
Defined.
